(** * YouTube Notes: the annotation state engine of [app.js]

    A shallow embedding of the methods of [class YouTubeNotesApp] that hold
    the people registry, the notes store, the notes filter, the timestamp
    parser and the project import and export, followed by the properties
    proved about them.

    Conventions of the embedding.
    - A JavaScript string is a [string]: one [ascii] stands for one code
      unit below 256.
    - A finite JavaScript number is the rational it denotes ([Q]); [NaN] and
      the infinities appear only where the code can produce them, in
      [parseFloat].  Rounding to a double is not modelled: the values
      agree with the code's where the code's arithmetic is exact, as it is
      on the whole numbers up to [MAX_SAFE_INTEGER]; a note's timestamp is
      finite.
    - [this] is the record [App]; a method is a function from [App] to [App],
      with the values it reads from its surroundings (the clock, the filter
      controls of the page) passed in an [Env].
    - DOM output (innerHTML, the player) and [localStorage] are written by
      the methods and never read back by the code modelled here; they are
      left out, except for the messages shown to the user, which are logged
      in [messages]. *)

From Stdlib Require Import List String Ascii Bool Arith ZArith NArith QArith Lia.
From Stdlib Require Import Permutation Sorted DecimalString DecimalN Lqa.
From Stdlib Require Import Qround.
From Stdlib Require DecimalPos DecimalFacts.
Import ListNotations.

Local Close Scope Q_scope.
Local Open Scope string_scope.
Local Open Scope list_scope.
Local Open Scope nat_scope.

(** ** Strings *)

Module Str.

(** [WhiteSpace] and [LineTerminator] code units below 256: TAB, LF, VT,
    FF, CR, SP and NBSP.  These are what [String.prototype.trim] strips
    and what [parseFloat] skips. *)
Definition isWhiteSpace (c : ascii) : bool :=
  let n := nat_of_ascii c in
  ((9 <=? n) && (n <=? 13)) || (n =? 32) || (n =? 160).

Definition isDigit (c : ascii) : bool :=
  let n := nat_of_ascii c in (48 <=? n) && (n <=? 57).

Definition digitValue (c : ascii) : Z := Z.of_nat (nat_of_ascii c) - 48.

Fixpoint trimStart (s : string) : string :=
  match s with
  | String c r => if isWhiteSpace c then trimStart r else s
  | EmptyString => EmptyString
  end.

(** [trimEnd]: a white space character is dropped when everything after
    it has been dropped. *)
Fixpoint trimEnd (s : string) : string :=
  match s with
  | String c r =>
      match trimEnd r with
      | EmptyString => if isWhiteSpace c then EmptyString else String c EmptyString
      | r' => String c r'
      end
  | EmptyString => EmptyString
  end.

(** [s.trim()] *)
Definition trim (s : string) : string := trimEnd (trimStart s).

(** Truthiness of a string: [!s] holds for the empty string only. *)
Definition truthy (s : string) : bool :=
  match s with EmptyString => false | _ => true end.

(** The longest run of decimal digits at the front, and the rest. *)
Fixpoint spanDigits (s : string) : string * string :=
  match s with
  | String c r =>
      if isDigit c then let (d, t) := spanDigits r in (String c d, t)
      else (EmptyString, s)
  | EmptyString => (EmptyString, EmptyString)
  end.

(** The number written by a run of decimal digits, most significant
    first, continuing from [acc]. *)
Fixpoint digitsFrom (acc : Z) (s : string) : Z :=
  match s with
  | String c r => digitsFrom (10 * acc + digitValue c) r
  | EmptyString => acc
  end.

Definition digits (s : string) : Z := digitsFrom 0 s.

Fixpoint allDigits (s : string) : bool :=
  match s with
  | String c r => isDigit c && allDigits r
  | EmptyString => true
  end.

(** [s.toLowerCase()] on code units below 256: A-Z and the Latin-1
    capitals (except the multiplication sign) move up by 32. *)
Definition lowerChar (c : ascii) : ascii :=
  let n := nat_of_ascii c in
  if ((65 <=? n) && (n <=? 90))
     || ((192 <=? n) && (n <=? 222) && negb (n =? 215))
  then ascii_of_nat (n + 32) else c.

Fixpoint toLowerCase (s : string) : string :=
  match s with
  | String c r => String (lowerChar c) (toLowerCase r)
  | EmptyString => EmptyString
  end.

(** [s.endsWith(suffix)] *)
Definition endsWith (s suffix : string) : bool :=
  let n := String.length s in
  let m := String.length suffix in
  (m <=? n) && (substring (n - m) m s =? suffix)%string.

End Str.

(** ** Numbers read from text *)

(** What [parseFloat] and [parseInt] return: [NaN], an infinity, or a finite
    value, kept as the exact rational the text denotes. *)
Inductive number : Type :=
| NaN
| Infinity (negative : bool)
| Num (q : Q).

(** The value of a mantissa [m] scaled by [10^e]. *)
Definition scale10 (m e : Z) : Q :=
  match e with
  | Z0 => m # 1
  | Zpos p => (m * Z.pow_pos 10 p) # 1
  | Zneg p => m # (Pos.pow 10 p)
  end.

Definition isNaN (x : number) : bool :=
  match x with NaN => true | _ => false end.

(** [x >= 0] on JavaScript numbers: false for [NaN]. *)
Definition geZero (x : number) : bool :=
  match x with
  | NaN => false
  | Infinity neg => negb neg
  | Num q => Qle_bool 0 q
  end.

(** The optional [ExponentPart] of a [StrDecimalLiteral]: [e] or [E], an
    optional sign and at least one digit; when the digits are missing the
    exponent is not part of the longest prefix and counts for nothing. *)
Definition exponentPart (s : string) : Z :=
  match s with
  | String c r =>
      if (c =? "e")%char || (c =? "E")%char then
        let '(neg, r1) :=
          match r with
          | String d t =>
              if (d =? "-")%char then (true, t)
              else if (d =? "+")%char then (false, t)
              else (false, r)
          | EmptyString => (false, r)
          end in
        let (ds, _) := Str.spanDigits r1 in
        match ds with
        | EmptyString => 0%Z
        | _ => if neg then (- Str.digits ds)%Z else Str.digits ds
        end
      else 0%Z
  | EmptyString => 0%Z
  end.

(** [parseFloat(s)]: skip leading white space, then take the longest prefix
    that is a [StrDecimalLiteral] (sign, [Infinity] or digits with an
    optional fraction and exponent) and ignore whatever follows it; [NaN]
    when there is no such prefix. *)
Definition parseFloat (s : string) : number :=
  let s1 := Str.trimStart s in
  let '(neg, s2) :=
    match s1 with
    | String c t =>
        if (c =? "-")%char then (true, t)
        else if (c =? "+")%char then (false, t)
        else (false, s1)
    | EmptyString => (false, s1)
    end in
  if prefix "Infinity" s2 then Infinity neg
  else
    let (ip, r1) := Str.spanDigits s2 in
    let (fp, r2) :=
      match r1 with
      | String c t =>
          if (c =? ".")%char then Str.spanDigits t else (EmptyString, r1)
      | EmptyString => (EmptyString, r1)
      end in
    match (ip ++ fp)%string with
    | EmptyString => NaN
    | ds =>
        let m := Str.digits ds in
        let e := (exponentPart r2 - Z.of_nat (String.length fp))%Z in
        Num (scale10 (if neg then (- m)%Z else m) e)
    end.

(** [parseInt(s)] on a string of decimal digits, the only use the code makes
    of it in [parseTimestamp]. *)
Definition parseInt (s : string) : Z := Str.digits s.

(** The regular expression [/^(\d+):(\d{2})$/]: one or more digits, a colon,
    exactly two digits, and nothing else.  Returns the two groups. *)
Definition matchTime (s : string) : option (string * string) :=
  let (m, r) := Str.spanDigits s in
  match m, r with
  | String _ _, String c (String a (String b EmptyString)) =>
      if (c =? ":")%char && Str.isDigit a && Str.isDigit b
      then Some (m, String a (String b EmptyString))
      else None
  | _, _ => None
  end.

(** [parseTimestamp(input)]; [None] is the [null] it returns on failure. *)
Definition parseTimestamp (input : string) : option number :=
  if negb (Str.truthy input) then None
  else
    (* Try parsing as seconds first *)
    let seconds := parseFloat input in
    if negb (isNaN seconds) && geZero seconds then Some seconds
    else
      (* Try parsing as MM:SS format *)
      match matchTime input with
      | Some (g1, g2) =>
          let minutes := parseInt g1 in
          let secs := parseInt g2 in
          if (secs <? 60)%Z then Some (Num (inject_Z (minutes * 60 + secs)))
          else None
      | None => None
      end.


(** ** Data model *)

(** A note object, as [addNote] builds it.  [updatedAt] is absent until
    [updateNote] sets it. *)
Module Note.
Record t : Type := make {
  id : string;
  text : string;
  people : list string;
  timestamp : Q;
  createdAt : string;
  updatedAt : option string
}.
End Note.

Local Unset Elimination Schemes.
(** A value that [JSON.parse] returns and [JSON.stringify] accepts.  An
    object lists its properties in insertion order, with distinct keys. *)
Inductive json : Type :=
| JNull
| JBool (b : bool)
| JNumber (q : Q)
| JString (s : string)
| JArray (items : list json)
| JObject (fields : list (string * json)).
Local Set Elimination Schemes.

Inductive MessageType : Type := error | success.

(** The text handed to [showMessage]: a fixed string, or one of the two
    templates that splice in a project name.  The name read from a loaded
    document is whatever value its [metadata.name] holds ([None] when the
    property is missing), so it is kept as that value. *)
Inductive Message : Type :=
| Text (s : string)
(** [`Project "${projectData.metadata.name}" loaded successfully!`] *)
| ProjectLoaded (name : option json)
(** [`Project "${name}" saved successfully!`] *)
| ProjectSaved (name : string).

(** The fields of [this] that the modelled methods read or write, and the
    log of the messages shown with [showError] and [showSuccess], latest
    first. *)
Record App : Type := mkApp {
  currentMode : string;
  people : list string;
  notes : list Note.t;
  videoId : option string;
  videoUrl : string;
  currentTime : Q;
  messages : list (MessageType * Message)
}.

(** The state the constructor sets up before [init]. *)
Definition newApp : App := mkApp "edit" [] [] None "" (0 # 1)%Q [].

Definition set_people (l : list string) (app : App) : App :=
  mkApp (currentMode app) l (notes app) (videoId app) (videoUrl app)
        (currentTime app) (messages app).

Definition set_notes (l : list Note.t) (app : App) : App :=
  mkApp (currentMode app) (people app) l (videoId app) (videoUrl app)
        (currentTime app) (messages app).

Definition set_video (v : option string) (url : string) (app : App) : App :=
  mkApp (currentMode app) (people app) (notes app) v url
        (currentTime app) (messages app).

Definition showMessage (message : Message) (type : MessageType) (app : App) : App :=
  mkApp (currentMode app) (people app) (notes app) (videoId app) (videoUrl app)
        (currentTime app) ((type, message) :: messages app).

Definition showError (message : Message) : App -> App := showMessage message error.
Definition showSuccess (message : Message) : App -> App := showMessage message success.

(** What a method reads from outside [this] while it runs. *)
Record Env : Type := mkEnv {
  (** [Date.now()], in milliseconds *)
  now : N;
  (** [new Date().toISOString()] *)
  isoNow : string;
  (** whether [document.getElementById('notes-list')] finds an element *)
  notesList : bool;
  (** the values of the [selectedOptions] of [#people-filter]; [None] when
      the element is missing *)
  peopleFilter : option (list string);
  (** the value of [#filter-mode]; [None] when the element is missing *)
  filterMode : option string
}.

(** ** Arrays *)

(** [arr.includes(x)] on an array of strings *)
Definition includes (x : string) (arr : list string) : bool :=
  existsb (String.eqb x) arr.

(** [Array.prototype.sort(comparefn)].  The sort is stable, and for a
    comparator that orders its arguments consistently the result is fixed
    by that alone: the elements in ascending order, those that compare
    equal in their original order.  Insertion from the right computes it:
    [x] stood before everything in [l] and goes before the first element
    it does not compare greater than. *)
Section ArraySort.
Context {A : Type} (comparefn : A -> A -> Q).

Fixpoint insert (x : A) (l : list A) : list A :=
  match l with
  | [] => [x]
  | y :: r => if Qle_bool (comparefn x y) 0 then x :: l else y :: insert x r
  end.

Fixpoint sort (l : list A) : list A :=
  match l with
  | [] => []
  | x :: r => insert x (sort r)
  end.
End ArraySort.

(** The comparator [(a, b) => a.timestamp - b.timestamp]. *)
Definition byTimestamp (a b : Note.t) : Q :=
  (Note.timestamp a - Note.timestamp b)%Q.

(** ** People management *)

(** [addPerson(name)] *)
Definition addPerson (name : string) (app : App) : App :=
  if negb (Str.truthy name) || includes name (people app) then app
  else set_people (people app ++ [name]) app.

(** [removePerson(name)] *)
Definition removePerson (name : string) (app : App) : App :=
  set_people (filter (fun p => negb (p =? name)%string) (people app)) app.

(** ** Notes filter *)

(** [document.getElementById('filter-mode')?.value || 'or'] *)
Definition filterModeOf (env : Env) : string :=
  match filterMode env with
  | Some v => if Str.truthy v then v else "or"
  | None => "or"
  end.

(** The selected people read from the page, without the "All People" option
    whose value is empty. *)
Definition selectedPeopleOf (env : Env) : list string :=
  filter (fun value => negb (value =? "")%string)
         (match peopleFilter env with Some l => l | None => [] end).

(** The predicate of [this.notes.filter(...)]. *)
Definition matchesFilter (mode : string) (selectedPeople : list string)
    (note : Note.t) : bool :=
  if (mode =? "and")%string
  then forallb (fun person => includes person (Note.people note)) selectedPeople
  else existsb (fun person => includes person (Note.people note)) selectedPeople.

(** [getFilteredNotes()]: the array it returns and [this] afterwards.  With
    nothing selected the method sorts [this.notes] itself and returns that
    same array; otherwise [filter] makes a new array and only that one is
    sorted. *)
Definition getFilteredNotes (env : Env) (app : App) : list Note.t * App :=
  let mode := filterModeOf env in
  let selectedPeople := selectedPeopleOf env in
  if List.length selectedPeople =? 0 then
    let sorted := sort byTimestamp (notes app) in
    (sorted, set_notes sorted app)
  else
    let filteredNotes := filter (matchesFilter mode selectedPeople) (notes app) in
    (sort byTimestamp filteredNotes, app).

(** [renderNotes()], for its effect on [this]: nothing when the list element
    is missing, else whatever [getFilteredNotes] does. *)
Definition renderNotes (env : Env) (app : App) : App :=
  if notesList env then snd (getFilteredNotes env app) else app.

(** ** Notes management *)

(** [Date.now().toString()] *)
Definition idOfClock (ms : N) : string :=
  NilEmpty.string_of_uint (N.to_uint ms).

(** [timestamp || this.currentTime]: the right operand is taken when the
    left one is [null] (here [None]) or zero. *)
Definition orCurrentTime (timestamp : option Q) (current : Q) : Q :=
  match timestamp with
  | Some t => if Qeq_bool t 0 then current else t
  | None => current
  end.

(** [people.filter(p => p.trim())] *)
Definition dropBlank (l : list string) : list string :=
  filter (fun p => Str.truthy (Str.trim p)) l.

(** The loop shared by [addNote] and [updateNote]:
    [note.people.forEach(person => { if (!this.people.includes(person)) this.addPerson(person) })] *)
Definition registerPeople (l : list string) (app : App) : App :=
  fold_left (fun a person =>
               if negb (includes person (people a)) then addPerson person a else a)
            l app.

(** [addNote(text, people = [], timestamp = null)] *)
Definition addNote (env : Env) (text : string) (people_ : list string)
    (timestamp : option Q) (app : App) : App :=
  if negb (Str.truthy (Str.trim text)) then app
  else
    let note := Note.make (idOfClock (now env)) (Str.trim text)
                          (dropBlank people_)
                          (orCurrentTime timestamp (currentTime app))
                          (isoNow env) None in
    let app1 := set_notes (notes app ++ [note]) app in
    let app2 := renderNotes env app1 in
    registerPeople (Note.people note) app2.

(** The assignment to the object that [this.notes.find(n => n.id === id)]
    returned: the first note with that id is changed where it stands. *)
Fixpoint assignFirst (id : string) (f : Note.t -> Note.t) (l : list Note.t)
    : list Note.t :=
  match l with
  | [] => []
  | n :: r => if (Note.id n =? id)%string then f n :: r else n :: assignFirst id f r
  end.

(** [updateNote(id, text, people, timestamp)] *)
Definition updateNote (env : Env) (id : string) (text : string)
    (people_ : list string) (timestamp : Q) (app : App) : App :=
  match find (fun n => (Note.id n =? id)%string) (notes app) with
  | None => app
  | Some _ =>
      let newPeople := dropBlank people_ in
      let assign n :=
        Note.make (Note.id n) (Str.trim text) newPeople timestamp
                  (Note.createdAt n) (Some (isoNow env)) in
      let app1 := set_notes (assignFirst id assign (notes app)) app in
      let app2 := renderNotes env app1 in
      registerPeople newPeople app2
  end.

(** [deleteNote(id)] *)
Definition deleteNote (env : Env) (id : string) (app : App) : App :=
  let app1 :=
    set_notes (filter (fun n => negb (Note.id n =? id)%string) (notes app)) app in
  renderNotes env app1.

(** ** Documents *)

(** Truthiness of the value of a property read; [None] is [undefined]. *)
Definition truthy (v : option json) : bool :=
  match v with
  | None | Some JNull => false
  | Some (JBool b) => b
  | Some (JNumber q) => negb (Qeq_bool q 0)
  | Some (JString s) => Str.truthy s
  | Some (JArray _) | Some (JObject _) => true
  end.

Fixpoint lookup (k : string) (fields : list (string * json)) : option json :=
  match fields with
  | [] => None
  | (k', v) :: r => if (k' =? k)%string then Some v else lookup k r
  end.

(** [o.k] for the property names the code reads ([metadata], [data],
    [youtubeId], [people], [notes], [name]) on a value other than [null]:
    only an object can have them.  On [null] the read throws, which the
    callers below handle before they get here. *)
Definition prop (k : string) (o : json) : option json :=
  match o with
  | JObject fields => lookup k fields
  | _ => None
  end.

(** *** From [this] to a document *)

Definition jsonOfStrings (l : list string) : json := JArray (map JString l).

(** A note object as [JSON.stringify] sees it: the properties in the order
    [addNote] created them, [updatedAt] last and only once [updateNote] has
    set it. *)
Definition jsonOfNote (n : Note.t) : json :=
  JObject ([("id", JString (Note.id n));
            ("text", JString (Note.text n));
            ("people", jsonOfStrings (Note.people n));
            ("timestamp", JNumber (Note.timestamp n));
            ("createdAt", JString (Note.createdAt n))]
           ++ match Note.updatedAt n with
              | Some u => [("updatedAt", JString u)]
              | None => []
              end).

Definition jsonOfNotes (l : list Note.t) : json := JArray (map jsonOfNote l).

Definition jsonOfVideoId (v : option string) : json :=
  match v with Some s => JString s | None => JNull end.

(** The object literal shared by [exportData], [saveProjectAs] and
    [saveProjectAsHTML], which differ in the mode they record. *)
Definition dataOf (mode : string) (app : App) : json :=
  JObject [("youtubeId", jsonOfVideoId (videoId app));
           ("videoUrl", JString (videoUrl app));
           ("people", jsonOfStrings (people app));
           ("notes", jsonOfNotes (notes app));
           ("settings", JObject [("currentMode", JString mode)])].

(** What a method hands to the browser for download: the file name and the
    value whose [JSON.stringify] text is the file. *)
Record Download : Type := mkDownload {
  download : string;
  document : json
}.

(** [this.videoId || 'project'] *)
Definition videoIdOrProject (app : App) : string :=
  match videoId app with
  | Some v => if Str.truthy v then v else "project"
  | None => "project"
  end.

(** [exportData()] *)
Definition exportData (app : App) : Download :=
  mkDownload ("youtube-notes-" ++ videoIdOrProject app ++ ".json")%string
             (dataOf (currentMode app) app).

(** [isoString.split('T')[0]] *)
Fixpoint beforeT (s : string) : string :=
  match s with
  | String c r => if (c =? "T")%char then EmptyString else String c (beforeT r)
  | EmptyString => EmptyString
  end.

(** [saveProjectAs(projectName = null, description = '')]: the download and
    [this] afterwards. *)
Definition saveProjectAs (env : Env) (projectName : option string)
    (description : string) (app : App) : Download * App :=
  let name :=
    match projectName with
    | Some n => if Str.truthy n then n else ("Project_" ++ beforeT (isoNow env))%string
    | None => ("Project_" ++ beforeT (isoNow env))%string
    end in
  let projectData :=
    JObject [("metadata",
              JObject [("name", JString name);
                       ("description", JString description);
                       ("created", JString (isoNow env));
                       ("lastModified", JString (isoNow env));
                       ("version", JString "1.0");
                       ("appVersion", JString "2.0")]);
             ("data", dataOf (currentMode app) app)] in
  (mkDownload (name ++ ".ynp")%string projectData,
   showSuccess (ProjectSaved name) app).

(** *** From a document to [this] *)

(** [JSON.parse(e.target.result)]: a [SyntaxError], or a value. *)
Inductive ParseResult : Type :=
| SyntaxError
| Parsed (value : json).

(** A file picked by the user: its name, its size in bytes, and what
    [JSON.parse] makes of its text. *)
Record File : Type := mkFile {
  name : string;
  size : N;
  content : ParseResult
}.

(** The file a download becomes once written: [JSON.stringify] followed by
    [JSON.parse] gives back the values built above (finite numbers,
    strings, arrays, objects with distinct keys).  The size is that of the
    text, which is not modelled, so it is given. *)
Definition fileOf (d : Download) (bytes : N) : File :=
  mkFile (download d) bytes (Parsed (document d)).

Fixpoint stringsOfJson (items : list json) : option (list string) :=
  match items with
  | [] => Some []
  | JString s :: r =>
      match stringsOfJson r with Some l => Some (s :: l) | None => None end
  | _ :: _ => None
  end.

(** The note a parsed object stands for, when it has exactly the shape of
    the notes this program writes. *)
Definition noteOfJson (j : json) : option Note.t :=
  match j with
  | JObject ((k1, JString i) :: (k2, JString t) :: (k3, JArray ps)
             :: (k4, JNumber q) :: (k5, JString c) :: r) =>
      if ((k1 =? "id") && (k2 =? "text") && (k3 =? "people")
          && (k4 =? "timestamp") && (k5 =? "createdAt"))%string
      then
        match stringsOfJson ps, r with
        | Some l, [] => Some (Note.make i t l q c None)
        | Some l, [(k6, JString u)] =>
            if (k6 =? "updatedAt")%string
            then Some (Note.make i t l q c (Some u)) else None
        | _, _ => None
        end
      else None
  | _ => None
  end.

Fixpoint notesOfJson (items : list json) : option (list Note.t) :=
  match items with
  | [] => Some []
  | j :: r =>
      match noteOfJson j, notesOfJson r with
      | Some n, Some l => Some (n :: l)
      | _, _ => None
      end
  end.

(** [data.people || []], as a value the [people] field of [App] can hold.
    The code stores whatever truthy value the document has; [None] marks a
    value that is not an array of strings, which this model has no place
    for. *)
Definition peopleOrEmpty (v : option json) : option (list string) :=
  if truthy v then
    match v with
    | Some (JArray items) => stringsOfJson items
    | _ => None
    end
  else Some [].

(** [data.notes || []], likewise. *)
Definition notesOrEmpty (v : option json) : option (list Note.t) :=
  if truthy v then
    match v with
    | Some (JArray items) => notesOfJson items
    | _ => None
    end
  else Some [].

(** [loadVideoFromId(videoId)], for its effect on [this] (the player is
    outside the model). *)
Definition loadVideoFromId (v : string) (app : App) : App :=
  set_video (Some v) ("https://www.youtube.com/watch?v=" ++ v)%string app.

(** The statements that [importData] and the project branch of
    [loadProject] have in common:
    [if (data.youtubeId) this.loadVideoFromId(data.youtubeId);
     this.people = data.people || []; this.notes = data.notes || [];]
    [None] when the document holds a value the records cannot (see
    [peopleOrEmpty]); the code itself goes on with that value. *)
Definition replaceFrom (data : json) (app : App) : option App :=
  let withVideo :=
    if truthy (prop "youtubeId" data) then
      match prop "youtubeId" data with
      | Some (JString v) => Some (loadVideoFromId v app)
      | _ => None
      end
    else Some app in
  match withVideo, peopleOrEmpty (prop "people" data),
        notesOrEmpty (prop "notes" data) with
  | Some app1, Some ps, Some ns => Some (set_notes ns (set_people ps app1))
  | _, _, _ => None
  end.

(** The callback [reader.onload] of [importData(file)], run on the text of
    the file.  Reading a property of [null] throws a [TypeError], which the
    [catch] reports like a [SyntaxError]. *)
Definition importData (env : Env) (file : File) (app : App) : option App :=
  let failed :=
    showError (Text "Error importing data. Please check the file format.") app in
  match content file with
  | SyntaxError => Some failed
  | Parsed JNull => Some failed
  | Parsed data =>
      match replaceFrom data app with
      | Some app1 =>
          Some (showSuccess (Text "Data imported successfully!")
                            (renderNotes env app1))
      | None => None
      end
  end.

Definition validExtensions : list string := [".ynp"; ".json"; ".txt"].

(** [validExtensions.some(ext => file.name.toLowerCase().endsWith(ext))] *)
Definition hasValidExtension (file : File) : bool :=
  let fileExtension := Str.toLowerCase (name file) in
  existsb (fun ext => Str.endsWith fileExtension ext) validExtensions.

(** The size limit of [loadProject], 10MB. *)
Definition maxSize : N := 10 * 1024 * 1024.

(** [loadProject(file)], with [reader.onload] run on the text of the
    file. *)
Definition loadProject (env : Env) (file : File) (app : App) : option App :=
  if negb (hasValidExtension file) then
    Some (showError (Text "Invalid file type. Please select a .ynp, .json, or .txt project file.") app)
  else if (maxSize <? size file)%N then
    Some (showError (Text "File too large. Please select a project file smaller than 10MB.") app)
  else
    let failed :=
      showError (Text "Error loading project. Please check that this is a valid .ynp project file.") app in
    match content file with
    | SyntaxError => Some failed
    | Parsed JNull => Some failed
    | Parsed projectData =>
        if truthy (prop "metadata" projectData)
           && truthy (prop "data" projectData)
        then
          match prop "metadata" projectData, prop "data" projectData with
          | Some metadata, Some data =>
              match replaceFrom data app with
              | Some app1 =>
                  Some (showSuccess (ProjectLoaded (prop "name" metadata))
                                    (renderNotes env app1))
              | None => None
              end
          | _, _ => None
          end
        else
          (* Fallback for old format JSON files *)
          importData env file app
    end.

(** *** The self-contained page *)

(** What the constructor of the generated page assigns, from the text
    [generateSelfContainedHTML(data)] splices in:
    [this.people = ${JSON.stringify(data.people)}],
    [this.notes = ${JSON.stringify(data.notes)}],
    [this.videoId = '${data.youtubeId}'], [this.videoUrl = '${data.videoUrl}'].
    A JSON text read as a JavaScript expression denotes the same value; the
    two strings are what the template writes between the quotes, [null]
    becoming the text [null]. *)
Record Embedded : Type := mkEmbedded {
  embeddedPeople : option json;
  embeddedNotes : option json;
  embeddedVideoId : string;
  embeddedVideoUrl : string
}.

Definition generateSelfContainedHTML (data : json) : Embedded :=
  mkEmbedded (prop "people" data) (prop "notes" data)
             (match prop "youtubeId" data with
              | Some (JString v) => v
              | Some JNull => "null"
              | _ => "undefined"
              end)
             (match prop "videoUrl" data with
              | Some (JString u) => u
              | _ => "undefined"
              end).

(** [saveProjectAsHTML()], up to the call of [generateSelfContainedHTML]. *)
Definition saveProjectAsHTML (app : App) : Embedded :=
  generateSelfContainedHTML (dataOf "view" app).

(** The people and notes the generated page starts with. *)
Definition extracted (e : Embedded) : option (list string * list Note.t) :=
  match embeddedPeople e, embeddedNotes e with
  | Some (JArray ps), Some (JArray ns) =>
      match stringsOfJson ps, notesOfJson ns with
      | Some l, Some m => Some (l, m)
      | _, _ => None
      end
  | _, _ => None
  end.

(** ** Sessions *)

(** The user actions that reach the methods above: the note form, the edit
    and delete buttons of a note, the people list, and a change of the
    filter controls, which re-renders the notes. *)
Inductive Command : Type :=
| AddNote (env : Env) (text : string) (people_ : list string) (timestamp : option Q)
| UpdateNote (env : Env) (id : string) (text : string) (people_ : list string)
             (timestamp : Q)
| DeleteNote (env : Env) (id : string)
| AddPerson (name : string)
| RemovePerson (name : string)
| FilterChanged (env : Env).

Definition step (app : App) (c : Command) : App :=
  match c with
  | AddNote env text ps t => addNote env text ps t app
  | UpdateNote env id text ps t => updateNote env id text ps t app
  | DeleteNote env id => deleteNote env id app
  | AddPerson name => addPerson name app
  | RemovePerson name => removePerson name app
  | FilterChanged env => renderNotes env app
  end.

(** The events are handled one after the other, each to completion. *)
Definition run (cmds : list Command) (app : App) : App :=
  fold_left step cmds app.

(** The clock readings of the [addNote] calls of a session. *)
Fixpoint addClocks (cmds : list Command) : list N :=
  match cmds with
  | [] => []
  | AddNote env _ _ _ :: r => now env :: addClocks r
  | _ :: r => addClocks r
  end.

(** The names [registerPeople] appends: those not seen so far, each at its
    first occurrence. *)
Fixpoint newNames (seen : list string) (l : list string) : list string :=
  match l with
  | [] => []
  | p :: r =>
      if includes p seen || negb (Str.truthy p) then newNames seen r
      else p :: newNames (seen ++ [p]) r
  end.

(** Ascending order of timestamps. *)
Definition timestampLe (a b : Note.t) : Prop :=
  (Note.timestamp a <= Note.timestamp b)%Q.

(** The notes [getFilteredNotes] keeps: all of them when nothing is
    selected, else those that pass [matchesFilter]. *)
Definition kept (env : Env) (n : Note.t) : bool :=
  match selectedPeopleOf env with
  | [] => true
  | _ :: _ => matchesFilter (filterModeOf env) (selectedPeopleOf env) n
  end.


(** The three notes of the worked example: A mentions x, B mentions x and
    y, C mentions y; they were stored in the order A, B, C, and B has the
    earliest timestamp, then C, then A. *)
Module Example.
Definition A : Note.t := Note.make "1" "a" ["x"] (30 # 1) "" None.
Definition B : Note.t := Note.make "2" "b" ["x"; "y"] (10 # 1) "" None.
Definition C : Note.t := Note.make "3" "c" ["y"] (20 # 1) "" None.
Definition app : App := set_notes [A; B; C] (set_people ["x"; "y"] newApp).
Definition pageAt (ms : N) (selected : list string) (mode : string) : Env :=
  mkEnv ms "2024-01-01T00:00:00.000Z" true (Some selected) (Some mode).
Definition page : list string -> string -> Env := pageAt 1704067200000.
End Example.

(** [this.currentTime = ...], as the update timer assigns it from the
    player. *)
Definition set_currentTime (t : Q) (app : App) : App :=
  mkApp (currentMode app) (people app) (notes app) (videoId app) (videoUrl app)
        t (messages app).

(** The invariant of a session: the ids in the store are distinct, and each
    is the text of a clock reading taken by an earlier [addNote]. *)
Definition idsFrom (used : list N) (app : App) : Prop :=
  NoDup (map Note.id (notes app))
  /\ forall i, In i (map Note.id (notes app)) ->
               exists c, In c used /\ i = idOfClock c.

(** The video that a load of the data of [app] leaves in [app0]: the one of
    [app] with its watch address, or, when [app] has none, the one [app0]
    had. *)
Definition videoAfterLoad (app app0 : App) : App :=
  match videoId app with
  | Some v => if Str.truthy v then loadVideoFromId v app0 else app0
  | None => app0
  end.

(** The video address is the watch address of the video id, as
    [loadVideoFromId] leaves it. *)
Definition videoCanonical (app : App) : Prop :=
  forall v, videoId app = Some v -> Str.truthy v = true ->
            videoUrl app = ("https://www.youtube.com/watch?v=" ++ v)%string.

(** ** Conditions on a state *)

(** The people list holds each name once, and not the empty name. *)
Definition registryOk (app : App) : Prop :=
  NoDup (people app) /\ ~ In "" (people app).

(** Every name a note mentions is in the people list. *)
Definition mentionsRegistered (app : App) : Prop :=
  forall n p, In n (notes app) -> In p (Note.people n) -> In p (people app).

(** The commands other than the removal of a person. *)
Definition keepsPeople (c : Command) : bool :=
  match c with RemovePerson _ => false | _ => true end.

(** [Number.MAX_SAFE_INTEGER], [2^53 - 1]: up to it every whole number is
    a double, and the code reads, divides by 60 and writes it with no
    rounding. *)
Definition MAX_SAFE_INTEGER : Z := 2 ^ 53 - 1.

(** Where [parseFloat] stops reading a whole number: at the end of the text
    or at a character that can continue neither the digits, nor a fraction,
    nor an exponent. *)
Definition endsNumber (rest : string) : bool :=
  match rest with
  | EmptyString => true
  | String c _ =>
      negb (Str.isDigit c || (c =? ".")%char || (c =? "e")%char || (c =? "E")%char)
  end.

(** ** The saved project *)

(** [saveData()]: the object whose [JSON.stringify] text is written to the
    item [youtubeNotesData] of [localStorage]. *)
Definition saveData (app : App) : json :=
  JObject [("people", jsonOfStrings (people app));
           ("notes", jsonOfNotes (notes app));
           ("videoId", jsonOfVideoId (videoId app));
           ("videoUrl", JString (videoUrl app))].

(** [data.videoId || null], as a value the [videoId] field can hold; the
    outer [None] marks a value that is not a string (see [peopleOrEmpty]). *)
Definition videoIdOrNull (v : option json) : option (option string) :=
  if truthy v then
    match v with Some (JString s) => Some (Some s) | _ => None end
  else Some None.

(** [data.videoUrl || ''], likewise. *)
Definition videoUrlOrEmpty (v : option json) : option string :=
  if truthy v then
    match v with Some (JString s) => Some s | _ => None end
  else Some "".

(** [loadData()], given what [localStorage.getItem('youtubeNotesData')]
    holds: [None] for no item or an empty text, else what [JSON.parse]
    makes of the text.  An error thrown on the way is caught and logged to
    the console only. *)
Definition loadData (item : option ParseResult) (app : App) : option App :=
  match item with
  | None => Some app
  | Some SyntaxError => Some app
  | Some (Parsed JNull) => Some app
  | Some (Parsed data) =>
      match peopleOrEmpty (prop "people" data), notesOrEmpty (prop "notes" data),
            videoIdOrNull (prop "videoId" data),
            videoUrlOrEmpty (prop "videoUrl" data) with
      | Some ps, Some ns, Some v, Some url =>
          let app1 := set_video v url (set_notes ns (set_people ps app)) in
          Some match v with
               | Some id => if Str.truthy id then loadVideoFromId id app1 else app1
               | None => app1
               end
      | _, _, _, _ => None
      end
  end.

(** ** Video addresses *)

(** The character class [[^&\n?#]]. *)
Definition idChar (c : ascii) : bool :=
  negb ((c =? "&")%char || (nat_of_ascii c =? 10) || (c =? "?")%char
        || (c =? "#")%char).

(** A line terminator, which [.] does not match (code units below 256). *)
Definition isLineTerminator (c : ascii) : bool :=
  (nat_of_ascii c =? 10) || (nat_of_ascii c =? 13).

(** The longest run of [idChar] at the front: what [[^&\n?#]+] takes when
    it ends the pattern. *)
Fixpoint takeId (s : string) : string :=
  match s with
  | String c r => if idChar c then String c (takeId r) else EmptyString
  | EmptyString => EmptyString
  end.

Fixpoint allIdChars (s : string) : bool :=
  match s with
  | String c r => idChar c && allIdChars r
  | EmptyString => true
  end.

(** The text after a literal at the front, when the literal is there. *)
Fixpoint dropLiteral (lit s : string) : option string :=
  match lit, s with
  | EmptyString, _ => Some s
  | String a l, String b r => if (a =? b)%char then dropLiteral l r else None
  | String _ _, EmptyString => None
  end.

(** A literal followed by the group [([^&\n?#]+)], matched at the front:
    the group, which needs one character at least. *)
Definition idAfter (lit s : string) : option string :=
  match dropLiteral lit s with
  | Some r => match takeId r with EmptyString => None | v => Some v end
  | None => None
  end.

(** [/(?:youtube\.com\/watch\?v=|youtu\.be\/|youtube\.com\/embed\/)([^&\n?#]+)/]
    matched at the front: the alternatives in their order. *)
Definition watchOrShortOrEmbed (s : string) : option string :=
  match idAfter "youtube.com/watch?v=" s with
  | Some v => Some v
  | None =>
      match idAfter "youtu.be/" s with
      | Some v => Some v
      | None => idAfter "youtube.com/embed/" s
      end
  end.

(** [/youtube\.com\/v\/([^&\n?#]+)/] matched at the front. *)
Definition slashV (s : string) : option string := idAfter "youtube.com/v/" s.

(** [.*v=([^&\n?#]+)] matched at the front: [.*] is greedy and gives back
    one character at a time, so the match is at the last [v=] of the line
    that a group can follow. *)
Fixpoint lastV (s : string) : option string :=
  match s with
  | EmptyString => None
  | String c r =>
      match (if isLineTerminator c then None else lastV r) with
      | Some v => Some v
      | None => idAfter "v=" s
      end
  end.

(** [/youtube\.com\/watch\?.*v=([^&\n?#]+)/] matched at the front. *)
Definition watchWithQuery (s : string) : option string :=
  match dropLiteral "youtube.com/watch?" s with
  | Some r => lastV r
  | None => None
  end.

(** [url.match(pattern)] for a pattern given by its match at the front: the
    first position, from the left, where it matches. *)
Fixpoint search (here : string -> option string) (s : string) : option string :=
  match s with
  | EmptyString => here EmptyString
  | String _ r =>
      match here s with
      | Some v => Some v
      | None => search here r
      end
  end.

(** [extractVideoId(url)] *)
Definition extractVideoId (url : string) : option string :=
  if negb (Str.truthy url) then None
  else
    match search watchOrShortOrEmbed url with
    | Some v => Some v
    | None =>
        match search slashV url with
        | Some v => Some v
        | None => search watchWithQuery url
        end
    end.

(** The click on the load button, given the text of the address field. *)
Definition loadVideoClick (url : string) (app : App) : App :=
  if negb (Str.truthy url) then showError (Text "Please enter a YouTube URL") app
  else
    match extractVideoId url with
    | None => showError (Text "Invalid YouTube URL. Please check the format.") app
    | Some v =>
        showSuccess (Text "Video loaded successfully!") (loadVideoFromId v app)
    end.

(** ** Recording time *)

(** The fields of [WebcamController] that recording reads or writes: whether
    there is a stream, whether [mediaRecorder] is set, and the two flags. *)
Record WebcamController : Type := mkWebcam {
  stream : bool;
  mediaRecorder : bool;
  isRecording : bool;
  isPaused : bool
}.

(** [this], with the fields of the recording clock beside those of [App].
    Times read from [Date.now()] are in milliseconds. *)
Record Studio : Type := mkStudio {
  core : App;
  currentSource : string;
  isRecordingTime : bool;
  recordingStartTime : Z;
  recordingElapsedTime : Q;
  recordingPausedTime : Z;
  webcamController : WebcamController
}.

(** [webcamController.startRecording()], up to its first statement that can
    fail: without a stream, or when it is recording already, or when the
    recorder cannot be made ([started] false), the fields stay as they
    are; the error, if any, is the rejection of a promise nobody awaits. *)
Definition startRecording (started : bool) (w : WebcamController) : WebcamController :=
  if negb (stream w) then w
  else if isRecording w then w
  else if started then mkWebcam (stream w) true true false
  else w.

(** [webcamController.pauseRecording()] *)
Definition pauseRecording (w : WebcamController) : WebcamController :=
  if mediaRecorder w && isRecording w && negb (isPaused w)
  then mkWebcam (stream w) (mediaRecorder w) (isRecording w) true
  else w.

(** [webcamController.resumeRecording()] *)
Definition resumeRecording (w : WebcamController) : WebcamController :=
  if mediaRecorder w && isRecording w && isPaused w
  then mkWebcam (stream w) (mediaRecorder w) (isRecording w) false
  else w.

Definition withCore (f : App -> App) (st : Studio) : Studio :=
  mkStudio (f (core st)) (currentSource st) (isRecordingTime st)
           (recordingStartTime st) (recordingElapsedTime st)
           (recordingPausedTime st) (webcamController st).

(** [startWebcamRecording()], at the clock reading [nowMs] *)
Definition startWebcamRecording (nowMs : Z) (started : bool) (st : Studio) : Studio :=
  let w := startRecording started (webcamController st) in
  let said := showSuccess (Text "Recording started") (core st) in
  if (currentSource st =? "webcam")%string
  then mkStudio said (currentSource st) true nowMs (0 # 1) 0 w
  else mkStudio said (currentSource st) (isRecordingTime st)
                (recordingStartTime st) (recordingElapsedTime st)
                (recordingPausedTime st) w.

(** [pauseWebcamRecording()] *)
Definition pauseWebcamRecording (nowMs : Z) (st : Studio) : Studio :=
  let w := pauseRecording (webcamController st) in
  let said := showSuccess (Text "Recording paused") (core st) in
  mkStudio said (currentSource st) (isRecordingTime st)
           (recordingStartTime st) (recordingElapsedTime st)
           (if (currentSource st =? "webcam")%string && isRecordingTime st
            then nowMs else recordingPausedTime st)
           w.

(** [resumeWebcamRecording()] *)
Definition resumeWebcamRecording (nowMs : Z) (st : Studio) : Studio :=
  let w := resumeRecording (webcamController st) in
  let said := showSuccess (Text "Recording resumed") (core st) in
  if (currentSource st =? "webcam")%string && isRecordingTime st
     && (0 <? recordingPausedTime st)%Z
  then
    let pauseDuration := (nowMs - recordingPausedTime st)%Z in
    mkStudio said (currentSource st) (isRecordingTime st)
             (recordingStartTime st + pauseDuration)%Z
             (recordingElapsedTime st) 0 w
  else
    mkStudio said (currentSource st) (isRecordingTime st)
             (recordingStartTime st) (recordingElapsedTime st)
             (recordingPausedTime st) w.

(** [updateRecordingTime()] *)
Definition updateRecordingTime (nowMs : Z) (st : Studio) : Studio :=
  if isRecordingTime st && negb (isPaused (webcamController st)) then
    let elapsed := ((nowMs - recordingStartTime st) # 1000)%Q in
    mkStudio (set_currentTime elapsed (core st)) (currentSource st)
             (isRecordingTime st) (recordingStartTime st) elapsed
             (recordingPausedTime st) (webcamController st)
  else st.

(** The click on the pause button: it resumes when the recording is paused
    and pauses otherwise. *)
Definition pauseButton (nowMs : Z) (st : Studio) : Studio :=
  if isPaused (webcamController st) then resumeWebcamRecording nowMs st
  else pauseWebcamRecording nowMs st.

(** The pause button pressed at [p] and again at [r], for each pair of a
    list in turn. *)
Fixpoint pauseAndResume (pauses : list (Z * Z)) (st : Studio) : Studio :=
  match pauses with
  | [] => st
  | (p, r) :: rest => pauseAndResume rest (pauseButton r (pauseButton p st))
  end.

(** The time spent in the pauses of a list. *)
Fixpoint pausedFor (pauses : list (Z * Z)) : Z :=
  match pauses with
  | [] => 0
  | (p, r) :: rest => (r - p) + pausedFor rest
  end.

(** The state in which the clock runs: the webcam is the source, the
    recorder records and is not paused, and no pause is pending. *)
Definition clockRuns (st : Studio) : Prop :=
  currentSource st = "webcam"
  /\ isRecordingTime st = true
  /\ recordingPausedTime st = 0%Z
  /\ mediaRecorder (webcamController st) = true
  /\ isRecording (webcamController st) = true
  /\ isPaused (webcamController st) = false.

(** ** Times as text *)

(** [n.toString()] for a whole number, in decimal digits: the text the code
    writes for a whole number below [10^21]. *)
Definition toStringZ (z : Z) : string :=
  match z with
  | Z0 => "0"
  | Zpos p => idOfClock (Npos p)
  | Zneg p => ("-" ++ idOfClock (Npos p))%string
  end.

(** [Math.trunc]: towards zero. *)
Definition jsTrunc (q : Q) : Z :=
  if Qle_bool 0 q then Qfloor q else Qceiling q.

(** [a % b] on finite numbers, [b] not zero: what is left of [a] once the
    multiples of [b] that fit, counted towards zero, are taken off. *)
Definition jsRemainder (a b : Q) : Q :=
  (a - b * inject_Z (jsTrunc (a / b)))%Q.

(** [s.padStart(2, '0')] *)
Definition padStart2 (s : string) : string :=
  match s with
  | EmptyString => "00"
  | String c EmptyString => String "0" s
  | _ => s
  end.

(** [formatTime(seconds)] on a finite number, with the quotient, the
    remainder and the text of the minutes exact: they are the code's for a
    time up to [MAX_SAFE_INTEGER] (the remainder is exact in the code for
    every time). *)
Definition formatTime (seconds : Q) : string :=
  if Qeq_bool seconds 0 then "0:00"
  else
    let mins := Qfloor (seconds / (60 # 1)) in
    let secs := Qfloor (jsRemainder seconds (60 # 1)) in
    (toStringZ mins ++ ":" ++ padStart2 (toStringZ secs))%string.

(** Whether a number below 60 is written by [padStart2] as two digits that
    read as that number. *)
Definition twoDigitsOk (n : nat) : bool :=
  match padStart2 (toStringZ (Z.of_nat n)) with
  | String a (String b EmptyString) =>
      Str.isDigit a && Str.isDigit b
      && (Str.digits (String a (String b EmptyString)) =? Z.of_nat n)%Z
  | _ => false
  end.

(** ** Seeking *)

(** The fields of [this] that the seek methods read: the source chosen,
    whether [this.player] and [webcamController.videoElement] are set,
    whether the video is loaded, and its duration (finite for a video and
    a local file, the only sources these methods act on). *)
Module Transport.
Record t : Type := make {
  currentSource : string;
  player : bool;
  isVideoLoaded : bool;
  videoElement : bool;
  duration : Q
}.
End Transport.

(** [Math.max(a, b)] and [Math.min(a, b)] on finite numbers. *)
Definition jsMax (a b : Q) : Q := if Qle_bool a b then b else a.
Definition jsMin (a b : Q) : Q := if Qle_bool a b then a else b.

(** [seekToTime(seconds)] called with a finite number: the time it asks the
    player (or, for a local file, the video element) to move to, [None]
    when it returns without asking.  [parseFloat] of a number gives the
    number back. *)
Definition seekToTime (seconds : Q) (tr : Transport.t) : option Q :=
  if (Transport.currentSource tr =? "youtube")%string then
    if negb (Transport.player tr) then None
    else if negb (Transport.isVideoLoaded tr) then None
    else if negb (Qle_bool 0 seconds) then None
    else Some seconds
  else if (Transport.currentSource tr =? "local")%string then
    if negb (Transport.videoElement tr) then None
    else if negb (Qle_bool 0 seconds) then None
    else Some seconds
  else None.

(** [jumpTime(seconds)], given the position the player (or the video
    element) reports. *)
Definition jumpTime (position seconds : Q) (tr : Transport.t) : option Q :=
  let newTime := jsMax 0 (jsMin (position + seconds) (Transport.duration tr)) in
  if (Transport.currentSource tr =? "youtube")%string then
    if negb (Transport.player tr) then None else seekToTime newTime tr
  else if (Transport.currentSource tr =? "local")%string then
    if negb (Transport.videoElement tr) then None else seekToTime newTime tr
  else None.

(** ** The note form *)

(** [this], with the timestamp captured by the capture button beside the
    fields of [App]. *)
Record NoteForm : Type := mkNoteForm {
  project : App;
  capturedTimestamp : option Q
}.

(** The click on the capture button. *)
Definition captureTime (f : NoteForm) : NoteForm :=
  mkNoteForm (project f) (Some (currentTime (project f))).

(** Typing in the timestamp field. *)
Definition timestampTyped (f : NoteForm) : NoteForm :=
  mkNoteForm (project f) None.

(** The handler of the form's submit event, given the values of the text
    field, of the selected options of the people control and of the
    timestamp field.  [None] stands for a parsed timestamp that is an
    infinity, which the [timestamp] field of a note in this model cannot
    hold. *)
Definition submitNote (env : Env) (text : string) (selectedOptions : list string)
    (timestamp : string) (f : NoteForm) : option NoteForm :=
  if negb (Str.truthy text) then Some f
  else
    let selectedPeople :=
      filter (fun value => negb (value =? "")%string) selectedOptions in
    (* Priority: 1) Input field, 2) Captured timestamp, 3) Current time *)
    let parsedTimestamp : option number :=
      if Str.truthy timestamp then parseTimestamp timestamp
      else match capturedTimestamp f with
           | Some c => Some (Num c)
           | None => Some (Num (currentTime (project f)))
           end in
    match parsedTimestamp with
    | None =>
        Some (mkNoteForm
                (showError (Text "Invalid timestamp format. Please use seconds (e.g., 90) or time format (e.g., 1:30)")
                           (project f))
                (capturedTimestamp f))
    | Some (Num t) =>
        Some (mkNoteForm (addNote env text selectedPeople (Some t) (project f)) None)
    | Some _ => None
    end.

(** ** Editing a note *)

(** [s.split(',')] for a one-character separator: the pieces between the
    separators, one piece more than there are separators. *)
Fixpoint splitOn (sep : ascii) (s : string) : list string :=
  match s with
  | EmptyString => [EmptyString]
  | String c r =>
      if (c =? sep)%char then EmptyString :: splitOn sep r
      else match splitOn sep r with
           | h :: t => String c h :: t
           | [] => [String c EmptyString]
           end
  end.

(** [arr.join(sep)] *)
Fixpoint join (sep : string) (l : list string) : string :=
  match l with
  | [] => EmptyString
  | [x] => x
  | x :: r => (x ++ sep ++ join sep r)%string
  end.

Definition isHexDigit (c : ascii) : bool :=
  let n := nat_of_ascii c in
  Str.isDigit c || ((65 <=? n) && (n <=? 70)) || ((97 <=? n) && (n <=? 102)).

Definition hexValue (c : ascii) : Z :=
  let n := Z.of_nat (nat_of_ascii c) in
  if Str.isDigit c then n - 48
  else if (n <=? 70)%Z then n - 55 else n - 87.

(** The value of the longest run of hexadecimal digits at the front,
    continuing from [acc], and whether there was a digit. *)
Fixpoint hexFrom (seen : bool) (acc : Z) (s : string) : option Z :=
  match s with
  | String c r =>
      if isHexDigit c then hexFrom true (16 * acc + hexValue c) r
      else if seen then Some acc else None
  | EmptyString => if seen then Some acc else None
  end.

(** [parseInt(s)] without a radix, on any text: leading white space and a
    sign are skipped, [0x] or [0X] makes the digits hexadecimal, the digits
    are read as far as they go; [None] is [NaN], for no digit at all. *)
Definition parseIntText (s : string) : option Z :=
  let s1 := Str.trimStart s in
  let '(neg, s2) :=
    match s1 with
    | String c t =>
        if (c =? "-")%char then (true, t)
        else if (c =? "+")%char then (false, t)
        else (false, s1)
    | EmptyString => (false, s1)
    end in
  let magnitude :=
    match s2 with
    | String z (String x r) =>
        if (z =? "0")%char && ((x =? "x")%char || (x =? "X")%char)
        then hexFrom false 0 r
        else match Str.spanDigits s2 with
             | (EmptyString, _) => None
             | (ds, _) => Some (Str.digits ds)
             end
    | _ => match Str.spanDigits s2 with
           | (EmptyString, _) => None
           | (ds, _) => Some (Str.digits ds)
           end
    end in
  match magnitude with
  | Some m => Some (if neg then (- m)%Z else m)
  | None => None
  end.

(** [selection.split(',').map(s => parseInt(s.trim()) - 1)
      .filter(i => i >= 0 && i < this.people.length)] *)
Definition selectedIndices (selection : string) (people_ : list string) : list nat :=
  flat_map
    (fun piece =>
       match parseIntText (Str.trim piece) with
       | Some z =>
           let i := (z - 1)%Z in
           if (0 <=? i)%Z && (i <? Z.of_nat (List.length people_))%Z
           then [Z.to_nat i] else []
       | None => []
       end)
    (splitOn "," selection).

(** What the user answers to the three questions of [editNote]; [None] is
    the cancel button. *)
Record Answers : Type := mkAnswers {
  textAnswer : option string;
  peopleAnswer : option string;
  timestampAnswer : option string
}.

(** The names picked by their numbers in the people list. *)
Definition pickedPeople (selection : string) (people_ : list string) : list string :=
  map (fun i => nth i people_ EmptyString) (selectedIndices selection people_).

(** [editNote(id)].  The question about the people asks for numbers when
    there are people, for names when there are none.  [None] stands for a
    timestamp that parses to an infinity, as in [submitNote]. *)
Definition editNote (env : Env) (id : string) (answers : Answers) (app : App)
    : option App :=
  match find (fun n => (Note.id n =? id)%string) (notes app) with
  | None => Some app
  | Some _ =>
      match textAnswer answers with
      | None => Some app
      | Some newText =>
          let asked : option string :=
            if 0 <? List.length (people app) then
              match peopleAnswer answers with
              | Some selection =>
                  Some (join ", " (pickedPeople selection (people app)))
              | None => None
              end
            else peopleAnswer answers in
          match asked with
          | None => Some app
          | Some newPeople =>
              match timestampAnswer answers with
              | None => Some app
              | Some newTimestamp =>
                  match parseTimestamp newTimestamp with
                  | None =>
                      Some (showError (Text "Invalid timestamp format. Please use seconds (e.g., 90) or time format (e.g., 1:30)") app)
                  | Some (Num t) =>
                      Some (updateNote env id newText
                              (map Str.trim (splitOn "," newPeople)) t app)
                  | Some _ => None
                  end
              end
          end
      end
  end.

(** A name as the people question can give it back: not empty, no comma,
    no white space at either end. *)
Definition cleanName (p : string) : Prop :=
  p <> "" /\ Str.trim p = p /\ splitOn "," p = [p].

(** * Properties *)

(** ** The sort *)

Section SortFacts.
Context {A : Type} (comparefn : A -> A -> Q).

Lemma insert_perm (x : A) (l : list A) :
  Permutation (insert comparefn x l) (x :: l).
Proof.
  induction l as [|y r IH]; simpl.
  - apply Permutation_refl.
  - destruct (Qle_bool (comparefn x y) 0).
    + apply Permutation_refl.
    + eapply perm_trans; [apply perm_skip, IH | apply perm_swap].
Qed.

Lemma sort_perm (l : list A) : Permutation (sort comparefn l) l.
Proof.
  induction l as [|x r IH]; simpl.
  - constructor.
  - eapply perm_trans; [apply insert_perm | apply perm_skip, IH].
Qed.

Lemma sort_In (l : list A) (x : A) : In x (sort comparefn l) <-> In x l.
Proof.
  split; apply Permutation_in;
    [apply sort_perm | apply Permutation_sym, sort_perm].
Qed.

Lemma sort_length (l : list A) : List.length (sort comparefn l) = List.length l.
Proof. apply Permutation_length, sort_perm. Qed.
End SortFacts.

Lemma byTimestamp_le (a b : Note.t) :
  Qle_bool (byTimestamp a b) 0 = true <-> timestampLe a b.
Proof.
  unfold byTimestamp, timestampLe. rewrite Qle_bool_iff. split; intros H; lra.
Qed.

Lemma byTimestamp_gt (a b : Note.t) :
  Qle_bool (byTimestamp a b) 0 = false ->
  (Note.timestamp b < Note.timestamp a)%Q.
Proof.
  intros H. apply Qnot_le_lt. intros Hle.
  apply byTimestamp_le in Hle. congruence.
Qed.

Lemma timestampLe_trans (a b c : Note.t) :
  timestampLe a b -> timestampLe b c -> timestampLe a c.
Proof. unfold timestampLe. apply Qle_trans. Qed.

Lemma insert_sorted (x : Note.t) (l : list Note.t) :
  StronglySorted timestampLe l ->
  StronglySorted timestampLe (insert byTimestamp x l).
Proof.
  induction 1 as [|y r Hr IH Hy]; simpl.
  - repeat constructor.
  - destruct (Qle_bool (byTimestamp x y) 0) eqn:E.
    + apply byTimestamp_le in E.
      constructor; [constructor; assumption|].
      constructor; [assumption|].
      eapply Forall_impl; [|exact Hy].
      intros z Hz. eapply timestampLe_trans; eassumption.
    + constructor; [exact IH|].
      apply byTimestamp_gt in E.
      eapply Permutation_Forall; [apply Permutation_sym, insert_perm|].
      constructor; [|exact Hy].
      unfold timestampLe. apply Qlt_le_weak, E.
Qed.

Lemma sort_sorted (l : list Note.t) :
  StronglySorted timestampLe (sort byTimestamp l).
Proof.
  induction l as [|x r IH]; simpl; [constructor | apply insert_sorted, IH].
Qed.

(** The sort is stable: the notes that share a timestamp keep the order they
    had in the store. *)
Lemma insert_stable (t : Q) (x : Note.t) (l : list Note.t) :
  filter (fun n => Qeq_bool (Note.timestamp n) t) (insert byTimestamp x l)
  = filter (fun n => Qeq_bool (Note.timestamp n) t) (x :: l).
Proof.
  induction l as [|y r IH]; [reflexivity|].
  simpl insert. destruct (Qle_bool (byTimestamp x y) 0) eqn:E; [reflexivity|].
  apply byTimestamp_gt in E.
  change (filter ?f (y :: ?m)) with (if f y then y :: filter f m else filter f m).
  rewrite IH. simpl.
  destruct (Qeq_bool (Note.timestamp y) t) eqn:Ey;
    destruct (Qeq_bool (Note.timestamp x) t) eqn:Ex; try reflexivity.
  apply Qeq_bool_iff in Ey. apply Qeq_bool_iff in Ex.
  exfalso. rewrite Ex, Ey in E. exact (Qlt_irrefl _ E).
Qed.

Lemma sort_stable (t : Q) (l : list Note.t) :
  filter (fun n => Qeq_bool (Note.timestamp n) t) (sort byTimestamp l)
  = filter (fun n => Qeq_bool (Note.timestamp n) t) l.
Proof.
  induction l as [|x r IH]; [reflexivity|].
  simpl sort. rewrite insert_stable. simpl. rewrite IH. reflexivity.
Qed.

(** ** The notes filter *)

Lemma includes_In (x : string) (l : list string) :
  includes x l = true <-> In x l.
Proof.
  unfold includes. rewrite existsb_exists. split.
  - intros [y [Hy E]]. apply String.eqb_eq in E. subst. exact Hy.
  - intros H. exists x. split; [exact H | apply String.eqb_refl].
Qed.

Lemma matchesFilter_and (selected : list string) (n : Note.t) :
  matchesFilter "and" selected n = true <->
  forall p, In p selected -> In p (Note.people n).
Proof.
  unfold matchesFilter. simpl. rewrite forallb_forall.
  split; intros H p Hp; apply includes_In, H, Hp.
Qed.

Lemma matchesFilter_or (mode : string) (selected : list string) (n : Note.t) :
  mode <> "and" ->
  (matchesFilter mode selected n = true <->
   exists p, In p selected /\ In p (Note.people n)).
Proof.
  intros Hm. unfold matchesFilter.
  destruct (String.eqb_spec mode "and") as [E|_]; [contradiction|].
  rewrite existsb_exists.
  split; intros [p [Hp H]]; exists p; (split; [exact Hp | apply includes_In, H]).
Qed.

Lemma getFilteredNotes_result (env : Env) (app : App) :
  fst (getFilteredNotes env app) = sort byTimestamp (filter (kept env) (notes app)).
Proof.
  unfold getFilteredNotes, kept.
  destruct (selectedPeopleOf env) as [|p r]; simpl.
  - f_equal. induction (notes app) as [|n l IH]; simpl; congruence.
  - reflexivity.
Qed.

Lemma kept_spec (env : Env) (n : Note.t) :
  kept env n = true <->
  (selectedPeopleOf env = []
   \/ (filterModeOf env = "and"
       /\ forall p, In p (selectedPeopleOf env) -> In p (Note.people n))
   \/ (filterModeOf env <> "and"
       /\ exists p, In p (selectedPeopleOf env) /\ In p (Note.people n))).
Proof.
  unfold kept. destruct (selectedPeopleOf env) as [|q r] eqn:Es.
  - split; [left; reflexivity | reflexivity].
  - destruct (String.eqb_spec (filterModeOf env) "and") as [E|E].
    + rewrite E, matchesFilter_and. split.
      * intros H. right. left. split; [reflexivity | exact H].
      * intros [H|[[_ H]|[H _]]]; [discriminate | exact H | contradiction].
    + rewrite (matchesFilter_or _ _ _ E). split.
      * intros H. right. right. split; assumption.
      * intros [H|[[H _]|[_ H]]]; [discriminate | contradiction | exact H].
Qed.

(** C7.  Whatever the store, the selection and the mode: [getFilteredNotes]
    returns the notes in ascending order of timestamp, notes with equal
    timestamps in store order; with nothing selected these are all the
    notes; with a selection and the mode "and" they are exactly the notes
    that mention every selected name; with a selection and any other mode
    (the default is "or") exactly those that mention at least one.  On the
    notes A, B, C of the example: x with "or" gives B, A; x and y with "and"
    gives B; nothing selected gives B, C, A. *)
Theorem getFilteredNotes_filters_then_sorts (env : Env) (app : App) :
  let selected := selectedPeopleOf env in
  let mode := filterModeOf env in
  let result := fst (getFilteredNotes env app) in
  StronglySorted timestampLe result
  /\ Permutation result (filter (kept env) (notes app))
  /\ (forall t : Q,
        filter (fun n => Qeq_bool (Note.timestamp n) t) result
        = filter (fun n => Qeq_bool (Note.timestamp n) t)
                 (filter (kept env) (notes app)))
  /\ (selected = [] -> Permutation result (notes app))
  /\ (forall n, In n result <->
        In n (notes app)
        /\ (selected = []
            \/ (mode = "and" /\ forall p, In p selected -> In p (Note.people n))
            \/ (mode <> "and" /\ exists p, In p selected /\ In p (Note.people n))))
  /\ fst (getFilteredNotes (Example.page ["x"] "or") Example.app)
     = [Example.B; Example.A]
  /\ fst (getFilteredNotes (Example.page ["x"; "y"] "and") Example.app)
     = [Example.B]
  /\ fst (getFilteredNotes (Example.page [] "or") Example.app)
     = [Example.B; Example.C; Example.A].
Proof.
  intros selected mode result. subst result.
  rewrite getFilteredNotes_result.
  split; [apply sort_sorted|].
  split; [apply sort_perm|].
  split; [intros t; apply sort_stable|].
  split.
  { intros Hs. eapply perm_trans; [apply sort_perm|].
    replace (filter (kept env) (notes app)) with (notes app);
      [apply Permutation_refl|].
    unfold kept. fold selected. rewrite Hs.
    induction (notes app) as [|n l IH]; simpl; congruence. }
  split.
  { intros n. rewrite sort_In, filter_In, kept_spec. reflexivity. }
  repeat split; reflexivity.
Qed.

(** ** What the methods leave alone *)

Lemma addPerson_frame (name : string) (app : App) :
  notes (addPerson name app) = notes app
  /\ videoId (addPerson name app) = videoId app
  /\ videoUrl (addPerson name app) = videoUrl app
  /\ currentTime (addPerson name app) = currentTime app
  /\ messages (addPerson name app) = messages app.
Proof.
  unfold addPerson.
  destruct (negb (Str.truthy name) || includes name (people app));
    repeat split; reflexivity.
Qed.

Lemma registerPeople_notes (l : list string) (app : App) :
  notes (registerPeople l app) = notes app.
Proof.
  unfold registerPeople. revert app.
  induction l as [|p r IH]; intros app; simpl; [reflexivity|].
  rewrite IH. destruct (negb (includes p (people app))); [|reflexivity].
  apply addPerson_frame.
Qed.

Lemma registerPeople_people (l : list string) (app : App) :
  people (registerPeople l app) = people app ++ newNames (people app) l.
Proof.
  unfold registerPeople. revert app.
  induction l as [|p r IH]; intros app; simpl.
  - symmetry. apply app_nil_r.
  - rewrite IH. unfold addPerson.
    destruct (includes p (people app)) eqn:Ei; simpl; [reflexivity|].
    rewrite ?orb_false_r.
    destruct (Str.truthy p); simpl; [|reflexivity].
    rewrite <- app_assoc. reflexivity.
Qed.

Lemma newNames_covers (l seen : list string) (p : string) :
  In p l -> Str.truthy p = true -> In p (seen ++ newNames seen l).
Proof.
  revert seen. induction l as [|q r IH]; intros seen Hin Ht; [contradiction|].
  simpl. destruct Hin as [E|Hin].
  - subst q. rewrite Ht, orb_false_r.
    destruct (includes p seen) eqn:Ei.
    + apply in_or_app. left. apply includes_In, Ei.
    + apply in_or_app. right. left. reflexivity.
  - destruct (includes q seen || negb (Str.truthy q)).
    + apply IH; assumption.
    + specialize (IH (seen ++ [q]) Hin Ht).
      rewrite <- app_assoc in IH. exact IH.
Qed.

Lemma newNames_fresh (l seen : list string) (p : string) :
  In p (newNames seen l) -> In p l /\ ~ In p seen.
Proof.
  revert seen. induction l as [|q r IH]; intros seen Hin; [contradiction|].
  simpl in Hin. destruct (includes q seen || negb (Str.truthy q)) eqn:E.
  - destruct (IH _ Hin) as [H1 H2]. split; [right; exact H1 | exact H2].
  - apply orb_false_iff in E. destruct E as [Ei _].
    destruct Hin as [Eq|Hin].
    + subst q. split; [left; reflexivity|].
      intros H. apply includes_In in H. congruence.
    + destruct (IH _ Hin) as [H1 H2]. split; [right; exact H1|].
      intros H. apply H2, in_or_app. left. exact H.
Qed.

Lemma newNames_NoDup (l seen : list string) : NoDup (newNames seen l).
Proof.
  revert seen. induction l as [|q r IH]; intros seen; simpl; [constructor|].
  destruct (includes q seen || negb (Str.truthy q)); [apply IH|].
  constructor; [|apply IH].
  intros H. apply newNames_fresh in H. destruct H as [_ H].
  apply H, in_or_app. right. left. reflexivity.
Qed.

Lemma trim_truthy (s : string) :
  Str.truthy (Str.trim s) = true -> Str.truthy s = true.
Proof. destruct s; [discriminate | reflexivity]. Qed.

Lemma dropBlank_In (l : list string) (p : string) :
  In p (dropBlank l) <-> In p l /\ Str.truthy (Str.trim p) = true.
Proof. unfold dropBlank. rewrite filter_In. reflexivity. Qed.

Lemma renderNotes_perm (env : Env) (app : App) :
  Permutation (notes (renderNotes env app)) (notes app).
Proof.
  unfold renderNotes, getFilteredNotes.
  destruct (notesList env); [|apply Permutation_refl].
  destruct (List.length (selectedPeopleOf env) =? 0); simpl;
    [apply sort_perm | apply Permutation_refl].
Qed.

Lemma renderNotes_frame (env : Env) (app : App) :
  people (renderNotes env app) = people app
  /\ videoId (renderNotes env app) = videoId app
  /\ videoUrl (renderNotes env app) = videoUrl app
  /\ currentTime (renderNotes env app) = currentTime app
  /\ messages (renderNotes env app) = messages app.
Proof.
  unfold renderNotes, getFilteredNotes.
  destruct (notesList env); [|repeat split; reflexivity].
  destruct (List.length (selectedPeopleOf env) =? 0); repeat split; reflexivity.
Qed.

(** With a selection, [getFilteredNotes] leaves [this] as it is. *)
Lemma getFilteredNotes_selection_pure (env : Env) (app : App) :
  selectedPeopleOf env <> [] -> snd (getFilteredNotes env app) = app.
Proof.
  intros H. unfold getFilteredNotes.
  destruct (selectedPeopleOf env); [contradiction | reflexivity].
Qed.

(** Without one, it leaves the store sorted. *)
Lemma getFilteredNotes_no_selection (env : Env) (app : App) :
  selectedPeopleOf env = [] ->
  snd (getFilteredNotes env app) = set_notes (sort byTimestamp (notes app)) app.
Proof.
  intros H. unfold getFilteredNotes. rewrite H. reflexivity.
Qed.

(** ** People *)

(** C10.  [removePerson] takes every occurrence of the name out of the
    people list, keeps the other names in their order, and leaves the notes
    array as it is: a note that mentions the name is still there, with the
    same text, timestamp and people, the removed name among them. *)
Theorem removePerson_leaves_notes (name : string) (app : App) :
  let app' := removePerson name app in
  ~ In name (people app')
  /\ people app' = filter (fun p => negb (p =? name)%string) (people app)
  /\ (forall p, p <> name -> (In p (people app') <-> In p (people app)))
  /\ notes app' = notes app
  /\ (forall n, In n (notes app) -> In name (Note.people n) ->
        In n (notes app') /\ ~ In name (people app'))
  /\ videoId app' = videoId app
  /\ videoUrl app' = videoUrl app.
Proof.
  assert (Hout : ~ In name (people (removePerson name app))).
  { simpl. rewrite filter_In. intros [_ H].
    rewrite String.eqb_refl in H. discriminate. }
  simpl. split; [exact Hout|]. split; [reflexivity|]. split.
  { intros p Hp. rewrite filter_In. split; [intros [H _]; exact H|].
    intros H. split; [exact H|].
    destruct (String.eqb_spec p name); [contradiction | reflexivity]. }
  split; [reflexivity|]. split; [|split; reflexivity].
  intros n Hn _. split; [exact Hn | exact Hout].
Qed.

(** A list already in order is left as it is by the sort. *)
Lemma sort_of_sorted (l : list Note.t) :
  StronglySorted timestampLe l -> sort byTimestamp l = l.
Proof.
  induction 1 as [|x r Hr IH Hx]; [reflexivity|].
  simpl. rewrite IH. destruct r as [|y r']; [reflexivity|].
  simpl. inversion Hx as [|? ? Hxy _]. subst.
  apply byTimestamp_le in Hxy. rewrite Hxy. reflexivity.
Qed.

(** Called again on what it left, [getFilteredNotes] returns the same
    array of notes. *)
Lemma getFilteredNotes_again (env : Env) (app : App) :
  fst (getFilteredNotes env (snd (getFilteredNotes env app)))
  = fst (getFilteredNotes env app).
Proof.
  unfold getFilteredNotes.
  destruct (List.length (selectedPeopleOf env) =? 0); [|reflexivity].
  simpl. apply sort_of_sorted, sort_sorted.
Qed.

(** C2.  With nothing selected, [getFilteredNotes] sorts [this.notes]
    itself: whatever the store, it is in timestamp order once the method
    has returned, and the other fields are as they were.  On the store A,
    B, C of the example the store is B, C, A afterwards.  (With a selection
    the store is left as it is, see [getFilteredNotes_selection_pure].) *)
Theorem getFilteredNotes_reorders_store :
  (forall env app,
     selectedPeopleOf env = [] ->
     snd (getFilteredNotes env app) = set_notes (sort byTimestamp (notes app)) app
     /\ fst (getFilteredNotes env app) = notes (snd (getFilteredNotes env app)))
  /\ let env := Example.page [] "or" in
     let after := snd (getFilteredNotes env Example.app) in
     notes Example.app = [Example.A; Example.B; Example.C]
     /\ notes after = [Example.B; Example.C; Example.A]
     /\ notes after <> notes Example.app.
Proof.
  split.
  - intros env app Hs. unfold getFilteredNotes. rewrite Hs. simpl.
    split; reflexivity.
  - split; [reflexivity|]. split; [reflexivity|].
    intros H. discriminate H.
Qed.

(** ** Notes *)

Lemma orCurrentTime_omitted (current : Q) : orCurrentTime None current = current.
Proof. reflexivity. Qed.

Lemma orCurrentTime_given (t current : Q) :
  ~ (t == 0)%Q -> orCurrentTime (Some t) current = t.
Proof.
  intros H. unfold orCurrentTime.
  destruct (Qeq_bool t 0) eqn:E; [|reflexivity].
  apply Qeq_bool_iff in E. contradiction.
Qed.

Lemma orCurrentTime_zero (t current : Q) :
  (t == 0)%Q -> orCurrentTime (Some t) current = current.
Proof.
  intros H. unfold orCurrentTime.
  apply Qeq_bool_iff in H. rewrite H. reflexivity.
Qed.

(** [addNote] with a text that trims to nothing returns at once. *)
Lemma addNote_blank_noop (env : Env) (text : string) (ps : list string)
    (t : option Q) (app : App) :
  Str.trim text = "" -> addNote env text ps t app = app.
Proof. intros H. unfold addNote. rewrite H. reflexivity. Qed.

(** [addNote] with any other text: the store gains the one note built from
    the arguments, and the people list gains the names of the note it did
    not have, each once, in the order they come in the note. *)
Lemma addNote_adds_one_note (env : Env) (text : string) (ps : list string)
    (t : option Q) (app : App) :
  Str.truthy (Str.trim text) = true ->
  let note := Note.make (idOfClock (now env)) (Str.trim text) (dropBlank ps)
                        (orCurrentTime t (currentTime app)) (isoNow env) None in
  let app' := addNote env text ps t app in
  Permutation (notes app') (notes app ++ [note])
  /\ people app' = people app ++ newNames (people app) (dropBlank ps)
  /\ (forall p, In p (dropBlank ps) -> In p (people app'))
  /\ videoId app' = videoId app /\ videoUrl app' = videoUrl app.
Proof.
  intros Ht note app'. subst app'. unfold addNote. rewrite Ht. simpl negb. cbv iota.
  fold note. simpl Note.people.
  set (app1 := set_notes (notes app ++ [note]) app).
  assert (Hp : people (registerPeople (dropBlank ps) (renderNotes env app1))
               = people app ++ newNames (people app) (dropBlank ps)).
  { rewrite registerPeople_people.
    destruct (renderNotes_frame env app1) as [-> _]. reflexivity. }
  split.
  { rewrite registerPeople_notes. apply (renderNotes_perm env app1). }
  split; [exact Hp|]. split.
  { intros p Hin. rewrite Hp. apply newNames_covers; [exact Hin|].
    apply dropBlank_In in Hin. apply trim_truthy, Hin. }
  unfold registerPeople.
  assert (Hv : forall l a, videoId (fold_left (fun a person =>
               if negb (includes person (people a)) then addPerson person a else a) l a)
               = videoId a
            /\ videoUrl (fold_left (fun a person =>
               if negb (includes person (people a)) then addPerson person a else a) l a)
               = videoUrl a).
  { induction l as [|q r IH]; intros a; simpl; [split; reflexivity|].
    destruct (IH (if negb (includes q (people a)) then addPerson q a else a))
      as [-> ->].
    destruct (negb (includes q (people a))); [|split; reflexivity].
    destruct (addPerson_frame q a) as (_ & -> & -> & _). split; reflexivity. }
  destruct (Hv (dropBlank ps) (renderNotes env app1)) as [-> ->].
  destruct (renderNotes_frame env app1) as (_ & -> & -> & _).
  split; reflexivity.
Qed.

(** C4.  [addNote] called with a timestamp of 0 stores the note at the
    playback position: [timestamp || this.currentTime] takes the right
    operand for 0 as it does for a missing argument.  With the position at
    42, the note given the timestamp 0 is stored at 42.  (Any other given
    timestamp is stored as given, see [orCurrentTime_given].) *)
Theorem addNote_zero_timestamp_takes_currentTime :
  (forall env text ps t app,
     (t == 0)%Q -> Str.truthy (Str.trim text) = true ->
     In (Note.make (idOfClock (now env)) (Str.trim text) (dropBlank ps)
                   (currentTime app) (isoNow env) None)
        (notes (addNote env text ps (Some t) app)))
  /\ let env := Example.page [] "or" in
     let app := set_currentTime (42 # 1) newApp in
     notes (addNote env "intro" [] (Some (0 # 1)%Q) app)
     = [Note.make "1704067200000" "intro" [] (42 # 1)
                  "2024-01-01T00:00:00.000Z" None].
Proof.
  split; [|reflexivity].
  intros env text ps t app Hz Ht.
  destruct (addNote_adds_one_note env text ps (Some t) app Ht) as [Hp _].
  eapply Permutation_in; [apply Permutation_sym, Hp|].
  rewrite (orCurrentTime_zero t (currentTime app) Hz).
  apply in_or_app. right. left. reflexivity.
Qed.

Lemma assignFirst_In (id : string) (f : Note.t -> Note.t) (l : list Note.t)
    (n : Note.t) :
  find (fun m => (Note.id m =? id)%string) l = Some n ->
  In (f n) (assignFirst id f l).
Proof.
  induction l as [|m r IH]; simpl; [discriminate|].
  destruct (Note.id m =? id)%string.
  - intros E. inversion E. left. reflexivity.
  - intros E. right. exact (IH E).
Qed.

(** C3.  [updateNote] has no test of the text: when the id is that of a
    note in the store and the text trims to nothing, that note gets the
    empty text, the new people and the new timestamp.  On the note A of the
    example, with a text of three spaces: A is gone from the store and a
    note with A's id and no text stands in its place.  ([addNote] returns
    at once on such a text, see [addNote_blank_noop].) *)
Theorem updateNote_blank_text_overwrites :
  (forall env id text ps t app n,
     find (fun m => (Note.id m =? id)%string) (notes app) = Some n ->
     Str.trim text = "" ->
     In (Note.make (Note.id n) "" (dropBlank ps) t (Note.createdAt n)
                   (Some (isoNow env)))
        (notes (updateNote env id text ps t app)))
  /\ let env := Example.page ["x"] "or" in
     let app' := updateNote env "1" "   " ["y"] (7 # 1) Example.app in
     notes app'
     = [Note.make "1" "" ["y"] (7 # 1) "" (Some "2024-01-01T00:00:00.000Z");
        Example.B; Example.C]
     /\ Note.text Example.A = "a"
     /\ ~ In Example.A (notes app').
Proof.
  split.
  - intros env id text ps t app n Hf Ht.
    unfold updateNote. rewrite Hf, Ht, registerPeople_notes.
    eapply Permutation_in; [apply Permutation_sym, renderNotes_perm|].
    cbn [notes set_notes].
    apply (assignFirst_In id
             (fun m => Note.make (Note.id m) "" (dropBlank ps) t
                                 (Note.createdAt m) (Some (isoNow env)))
             (notes app) n Hf).
  - split; [reflexivity|]. split; [reflexivity|].
    simpl. intros [H|[H|[H|[]]]]; discriminate H.
Qed.

(** C9.  [addNote] at the given timestamp 0: whatever the store and the
    other arguments, the store gains one note, and that note stands at the
    playback position.  With the position at 42: the store has one more
    note, with the trimmed text and the people without the blank entry, and
    the names z and w are registered after x and y in the order met; but
    the note stands at 42, and no note of the store has the timestamp 0 of
    the arguments. *)
Theorem addNote_zero_timestamp_content_differs :
  (forall env text ps app,
     Str.truthy (Str.trim text) = true ->
     Permutation
       (notes (addNote env text ps (Some (0 # 1)%Q) app))
       (notes app ++ [Note.make (idOfClock (now env)) (Str.trim text)
                                (dropBlank ps) (currentTime app)
                                (isoNow env) None]))
  /\ let env := Example.page ["x"] "or" in
     let app := set_currentTime (42 # 1) Example.app in
     let app' := addNote env " intro " ["z"; " "; "x"; "w"; "z"] (Some (0 # 1)%Q) app in
     notes app'
     = notes app ++ [Note.make "1704067200000" "intro" ["z"; "x"; "w"; "z"] (42 # 1)
                               "2024-01-01T00:00:00.000Z" None]
     /\ people app' = ["x"; "y"; "z"; "w"]
     /\ forall n, In n (notes app') -> Note.timestamp n <> (0 # 1)%Q.
Proof.
  split.
  - intros env text ps app Ht.
    exact (proj1 (addNote_adds_one_note env text ps (Some (0 # 1)%Q) app Ht)).
  - split; [reflexivity|]. split; [reflexivity|].
    simpl. intros n [H|[H|[H|[H|[]]]]]; subst n; discriminate.
Qed.

(** ** The timestamp parser *)

Lemma isDigit_range (c : ascii) :
  Str.isDigit c = true <-> 48 <= nat_of_ascii c <= 57.
Proof.
  unfold Str.isDigit. cbv zeta.
  rewrite andb_true_iff, !Nat.leb_le. reflexivity.
Qed.

Lemma isDigit_not_space (c : ascii) :
  Str.isDigit c = true -> Str.isWhiteSpace c = false.
Proof.
  rewrite isDigit_range. unfold Str.isWhiteSpace. cbv zeta. intros H.
  rewrite !orb_false_iff, andb_false_iff, !Nat.leb_gt, !Nat.eqb_neq.
  revert H. generalize (nat_of_ascii c). intros n H. lia.
Qed.

Lemma isDigit_differs (c d : ascii) :
  Str.isDigit c = true -> Str.isDigit d = false -> (c =? d)%char = false.
Proof.
  intros Hc Hd. destruct (Ascii.eqb_spec c d) as [E|_]; [|reflexivity].
  subst d. congruence.
Qed.

Lemma digitValue_nonneg (c : ascii) :
  Str.isDigit c = true -> (0 <= Str.digitValue c)%Z.
Proof.
  rewrite isDigit_range. unfold Str.digitValue.
  generalize (nat_of_ascii c). intros n H. lia.
Qed.

Lemma spanDigits_allDigits (s : string) :
  Str.allDigits (fst (Str.spanDigits s)) = true.
Proof.
  induction s as [|c r IH]; [reflexivity|]. simpl.
  destruct (Str.isDigit c) eqn:E; [|reflexivity].
  destruct (Str.spanDigits r) as [d t]. simpl in *. rewrite E. exact IH.
Qed.

Lemma digitsFrom_nonneg (s : string) (acc : Z) :
  Str.allDigits s = true -> (0 <= acc)%Z -> (0 <= Str.digitsFrom acc s)%Z.
Proof.
  revert acc. induction s as [|c r IH]; intros acc Hd Hacc; [exact Hacc|].
  cbn [Str.allDigits] in Hd. cbn [Str.digitsFrom].
  apply andb_true_iff in Hd. destruct Hd as [Hc Hr].
  apply IH; [exact Hr|]. apply digitValue_nonneg in Hc.
  revert Hc. generalize (Str.digitValue c). intros v Hv. lia.
Qed.

Lemma spanDigits_head (s : string) (c : ascii) (m r : string) :
  Str.spanDigits s = (String c m, r) ->
  exists rest, s = String c rest /\ Str.isDigit c = true.
Proof.
  destruct s as [|c0 rest]; simpl; [discriminate|].
  destruct (Str.isDigit c0) eqn:E; [|discriminate].
  destruct (Str.spanDigits rest) as [d t]. intros H. inversion H. subst.
  exists rest. split; [reflexivity | exact E].
Qed.

Lemma append_empty_r (s : string) : (s ++ "")%string = s.
Proof. induction s as [|c r IH]; simpl; congruence. Qed.

(** A text that [/^(\d+):(\d{2})$/] matches starts with a digit, so
    [parseFloat] reads the minutes as a number and stops at the colon. *)
Lemma matchTime_parseFloat (input g1 g2 : string) :
  matchTime input = Some (g1, g2) ->
  parseFloat input = Num (Str.digits g1 # 1) /\ (0 <= Str.digits g1)%Z.
Proof.
  unfold matchTime. destruct (Str.spanDigits input) as [m r] eqn:Es.
  destruct m as [|c m']; [discriminate|].
  destruct r as [|c1 [|a [|b [|? ?]]]]; try discriminate.
  destruct ((c1 =? ":")%char && Str.isDigit a && Str.isDigit b) eqn:E;
    [|discriminate].
  intros H. inversion H. subst g1 g2. clear H.
  apply andb_true_iff in E. destruct E as [E _].
  apply andb_true_iff in E. destruct E as [E _].
  apply Ascii.eqb_eq in E. subst c1.
  pose proof (spanDigits_allDigits input) as Hall. rewrite Es in Hall. simpl fst in Hall.
  destruct (spanDigits_head _ _ _ _ Es) as [rest [-> Hc]].
  split; [|apply digitsFrom_nonneg; [exact Hall | lia]].
  unfold parseFloat.
  change (Str.trimStart (String c rest))
    with (if Str.isWhiteSpace c then Str.trimStart rest else String c rest).
  rewrite (isDigit_not_space c Hc).
  rewrite (isDigit_differs c "-" Hc eq_refl), (isDigit_differs c "+" Hc eq_refl).
  replace (prefix "Infinity" (String c rest)) with false.
  2:{ change (prefix "Infinity" (String c rest))
       with (if ascii_dec "I" c then prefix "nfinity" rest else false).
      destruct (ascii_dec "I" c) as [<-|_]; [discriminate Hc | reflexivity]. }
  rewrite Es. simpl.
  rewrite append_empty_r. reflexivity.
Qed.

(** Hence the second grammar never decides: on every input,
    [parseTimestamp] returns what [parseFloat] gives when that is a number
    at or above zero, and fails otherwise. *)
Lemma parseTimestamp_seconds_only (input : string) :
  parseTimestamp input
  = if Str.truthy input && negb (isNaN (parseFloat input))
       && geZero (parseFloat input)
    then Some (parseFloat input) else None.
Proof.
  unfold parseTimestamp. destruct (Str.truthy input); [|reflexivity]. simpl.
  destruct (negb (isNaN (parseFloat input)) && geZero (parseFloat input)) eqn:E;
    [reflexivity|].
  destruct (matchTime input) as [[g1 g2]|] eqn:Em; [|reflexivity].
  exfalso. destruct (matchTime_parseFloat _ _ _ Em) as [Hp Hd].
  rewrite Hp in E. simpl in E.
  assert (Qle_bool 0 (Str.digits g1 # 1) = true) as Hq.
  { apply Qle_bool_iff. unfold Qle. simpl. lia. }
  congruence.
Qed.

(** A text of the form minutes, colon, two digits parses to the minutes
    alone, whatever the two digits are. *)
Lemma parseTimestamp_minutes_only (input g1 g2 : string) :
  matchTime input = Some (g1, g2) ->
  parseTimestamp input = Some (Num (Str.digits g1 # 1)).
Proof.
  intros Hm. rewrite parseTimestamp_seconds_only.
  destruct (matchTime_parseFloat _ _ _ Hm) as [Hp Hd]. rewrite Hp.
  assert (Str.truthy input = true) as ->.
  { destruct input; [discriminate Hm | reflexivity]. }
  simpl. replace (Qle_bool 0 (Str.digits g1 # 1)) with true; [reflexivity|].
  symmetry. apply Qle_bool_iff. unfold Qle. simpl. lia.
Qed.

(** C1.  ["90"] parses to 90, the empty text and ["-5"] fail; but every
    text that the MM:SS pattern matches parses to its minutes alone, since
    [parseFloat] accepts the digits before the colon and the pattern is
    never tried: ["1:30"] parses to 1, not to 90, and ["1:60"] parses to 1
    instead of failing. *)
Theorem parseTimestamp_colon_texts :
  parseTimestamp "90" = Some (Num (90 # 1))
  /\ parseTimestamp "" = None
  /\ parseTimestamp "-5" = None
  /\ (forall input g1 g2,
        matchTime input = Some (g1, g2) ->
        parseTimestamp input = Some (Num (Str.digits g1 # 1)))
  /\ matchTime "1:30" = Some ("1", "30")
  /\ parseTimestamp "1:30" = Some (Num (1 # 1))
  /\ matchTime "1:60" = Some ("1", "60")
  /\ parseTimestamp "1:60" = Some (Num (1 # 1)).
Proof.
  split; [reflexivity|]. split; [reflexivity|]. split; [reflexivity|].
  split; [exact parseTimestamp_minutes_only|].
  repeat split; reflexivity.
Qed.

(** ** Note identifiers *)

Lemma idOfClock_injective (c1 c2 : N) : idOfClock c1 = idOfClock c2 -> c1 = c2.
Proof.
  unfold idOfClock. intros H.
  apply (f_equal NilEmpty.uint_of_string) in H.
  rewrite !NilEmpty.usu in H. inversion H as [E].
  rewrite <- (Unsigned.of_to c1), <- (Unsigned.of_to c2), E. reflexivity.
Qed.

Lemma assignFirst_ids (id : string) (f : Note.t -> Note.t) (l : list Note.t) :
  (forall n, Note.id (f n) = Note.id n) ->
  map Note.id (assignFirst id f l) = map Note.id l.
Proof.
  intros Hf. induction l as [|n r IH]; [reflexivity|]. simpl.
  destruct (Note.id n =? id)%string; simpl; [rewrite Hf | rewrite IH]; reflexivity.
Qed.

(** [assignFirst] changes one element, or none. *)
Lemma assignFirst_one (id : string) (f : Note.t -> Note.t) (l : list Note.t) :
  assignFirst id f l = l
  \/ exists l1 n l2, l = l1 ++ n :: l2 /\ assignFirst id f l = l1 ++ f n :: l2.
Proof.
  induction l as [|n r IH]; [left; reflexivity|]. simpl.
  destruct (Note.id n =? id)%string.
  - right. exists [], n, r. split; reflexivity.
  - destruct IH as [E|(l1 & m & l2 & E1 & E2)].
    + left. rewrite E. reflexivity.
    + right. exists (n :: l1), m, l2. rewrite E1 at 1. rewrite E2.
      split; reflexivity.
Qed.

Lemma updateNote_notes (env : Env) (id text : string) (ps : list string)
    (t : Q) (app : App) :
  updateNote env id text ps t app = app
  \/ Permutation
       (notes (updateNote env id text ps t app))
       (assignFirst id
          (fun n => Note.make (Note.id n) (Str.trim text) (dropBlank ps) t
                              (Note.createdAt n) (Some (isoNow env)))
          (notes app)).
Proof.
  unfold updateNote.
  destruct (find (fun n => (Note.id n =? id)%string) (notes app));
    [right | left; reflexivity].
  rewrite registerPeople_notes.
  eapply perm_trans; [apply renderNotes_perm|]. apply Permutation_refl.
Qed.

Lemma deleteNote_notes (env : Env) (id : string) (app : App) :
  Permutation (notes (deleteNote env id app))
              (filter (fun n => negb (Note.id n =? id)%string) (notes app)).
Proof.
  unfold deleteNote. eapply perm_trans; [apply renderNotes_perm|].
  apply Permutation_refl.
Qed.

Lemma NoDup_ids_filter (p : Note.t -> bool) (l : list Note.t) :
  NoDup (map Note.id l) -> NoDup (map Note.id (filter p l)).
Proof.
  induction l as [|n r IH]; simpl; intros H; [constructor|].
  inversion H as [|? ? Hn Hr]. subst.
  destruct (p n); simpl; [|apply IH, Hr].
  constructor; [|apply IH, Hr].
  intros Hin. apply Hn. apply in_map_iff in Hin.
  destruct Hin as [m [E Hm]]. apply filter_In in Hm.
  apply in_map_iff. exists m. split; [exact E | apply Hm].
Qed.

(** With distinct ids, at most one note carries a given id. *)
Lemma NoDup_ids_at_most_one (id : string) (l : list Note.t) :
  NoDup (map Note.id l) ->
  List.length l <= S (List.length (filter (fun n => negb (Note.id n =? id)%string) l)).
Proof.
  induction l as [|n r IH]; simpl; intros H; [lia|].
  inversion H as [|? ? Hn Hr]. subst.
  destruct (String.eqb_spec (Note.id n) id) as [E|E]; simpl.
  - apply le_n_S. clear IH. rewrite E in Hn.
    assert (filter (fun n => negb (Note.id n =? id)%string) r = r) as ->; [|lia].
    clear H Hr. induction r as [|m r IH]; [reflexivity|]. simpl.
    destruct (String.eqb_spec (Note.id m) id) as [Em|Em]; simpl.
    + exfalso. apply Hn. left. exact Em.
    + rewrite IH; [reflexivity|]. intros Hin. apply Hn. right. exact Hin.
  - specialize (IH Hr). lia.
Qed.

Lemma idsFrom_perm (used : list N) (app app' : App) :
  Permutation (map Note.id (notes app')) (map Note.id (notes app)) ->
  idsFrom used app -> idsFrom used app'.
Proof.
  intros Hp [Hn Hi]. split.
  - eapply Permutation_NoDup; [apply Permutation_sym, Hp | exact Hn].
  - intros i Hin. apply Hi. eapply Permutation_in; [exact Hp | exact Hin].
Qed.

Lemma idsFrom_more (used more : list N) (app : App) :
  idsFrom used app -> idsFrom (used ++ more) app.
Proof.
  intros [Hn Hi]. split; [exact Hn|].
  intros i Hin. destruct (Hi i Hin) as [c [Hc E]].
  exists c. split; [apply in_or_app; left; exact Hc | exact E].
Qed.

Lemma step_idsFrom (used : list N) (app : App) (c : Command) :
  idsFrom used app ->
  (forall k, In k (addClocks [c]) -> ~ In k used) ->
  idsFrom (used ++ addClocks [c]) (step app c).
Proof.
  intros Hinv Hfresh.
  destruct c as [env text ps t | env id text ps t | env id | name | name | env];
    simpl step; simpl addClocks.
  - (* addNote *)
    destruct (Str.truthy (Str.trim text)) eqn:Et.
    + destruct (addNote_adds_one_note env text ps t app Et) as [Hp _].
      apply (Permutation_map Note.id) in Hp. rewrite map_app in Hp. simpl in Hp.
      destruct Hinv as [Hn Hi]. split.
      * eapply Permutation_NoDup; [apply Permutation_sym, Hp|].
        eapply Permutation_NoDup; [apply Permutation_cons_append|].
        constructor; [|exact Hn].
        intros Hin. destruct (Hi _ Hin) as [k [Hk E]].
        apply idOfClock_injective in E. subst k.
        apply (Hfresh (now env)); [left; reflexivity | exact Hk].
      * intros i Hin. eapply Permutation_in in Hin; [|exact Hp].
        apply in_app_or in Hin. destruct Hin as [Hin|[E|[]]].
        -- destruct (Hi i Hin) as [k [Hk E]]. exists k.
           split; [apply in_or_app; left; exact Hk | exact E].
        -- exists (now env). split; [|symmetry; exact E].
           apply in_or_app. right. left. reflexivity.
    + unfold addNote. rewrite Et. simpl. apply idsFrom_more, Hinv.
  - (* updateNote *)
    rewrite app_nil_r.
    destruct (updateNote_notes env id text ps t app) as [E|Hp];
      [rewrite E; exact Hinv|].
    apply (idsFrom_perm used app); [|exact Hinv].
    apply (Permutation_map Note.id) in Hp.
    rewrite assignFirst_ids in Hp; [exact Hp | reflexivity].
  - (* deleteNote *)
    rewrite app_nil_r. destruct Hinv as [Hn Hi].
    pose proof (deleteNote_notes env id app) as Hp.
    apply (Permutation_map Note.id) in Hp. split.
    + eapply Permutation_NoDup; [apply Permutation_sym, Hp|].
      apply NoDup_ids_filter, Hn.
    + intros i Hin. eapply Permutation_in in Hin; [|exact Hp].
      apply Hi. apply in_map_iff in Hin. destruct Hin as [m [E Hm]].
      apply filter_In in Hm. apply in_map_iff. exists m.
      split; [exact E | apply Hm].
  - rewrite app_nil_r. apply (idsFrom_perm used app); [|exact Hinv].
    destruct (addPerson_frame name app) as [-> _]. apply Permutation_refl.
  - rewrite app_nil_r. exact Hinv.
  - rewrite app_nil_r. apply (idsFrom_perm used app); [|exact Hinv].
    apply Permutation_map, renderNotes_perm.
Qed.

Lemma addClocks_cons (c : Command) (r : list Command) :
  addClocks (c :: r) = addClocks [c] ++ addClocks r.
Proof. destruct c; reflexivity. Qed.

Lemma run_idsFrom (cmds : list Command) (used : list N) (app : App) :
  idsFrom used app ->
  NoDup (used ++ addClocks cmds) ->
  idsFrom (used ++ addClocks cmds) (run cmds app).
Proof.
  revert used app. induction cmds as [|c r IH]; intros used app Hinv Hnd.
  - simpl. rewrite app_nil_r. exact Hinv.
  - rewrite addClocks_cons in *. rewrite app_assoc in *.
    simpl run. apply IH; [|exact Hnd].
    apply step_idsFrom; [exact Hinv|].
    intros k Hk Hu. apply NoDup_app_remove_r in Hnd.
    revert Hk Hu. clear -Hnd. revert Hnd.
    induction used as [|u us IHu]; simpl; intros Hnd Hk Hu; [contradiction|].
    inversion Hnd as [|? ? Hx Hr]. subst. destruct Hu as [E|Hu].
    + subst u. apply Hx. apply in_or_app. right. exact Hk.
    + exact (IHu Hr Hk Hu).
Qed.

(** C5, as the code has it.  Two clock readings that differ give ids that
    differ.  So in a session that starts with an empty store and whose
    [addNote] calls all read different clock values, the ids in the store
    are distinct; [deleteNote] then takes away at most one note, and
    [updateNote] changes at most one note (the other notes are those that
    were there). *)
Theorem note_ids_distinct_for_distinct_clocks (cmds : list Command) :
  NoDup (addClocks cmds) ->
  let app := run cmds newApp in
  (forall c1 c2 : N, c1 <> c2 -> idOfClock c1 <> idOfClock c2)
  /\ NoDup (map Note.id (notes app))
  /\ (forall env id,
        List.length (notes app) <= S (List.length (notes (deleteNote env id app))))
  /\ (forall env id text ps t,
        updateNote env id text ps t app = app
        \/ exists l1 n l2 n',
             notes app = l1 ++ n :: l2
             /\ Note.id n' = Note.id n
             /\ Permutation (notes (updateNote env id text ps t app))
                            (l1 ++ n' :: l2)).
Proof.
  intros Hnd app.
  assert (Hinv : idsFrom (addClocks cmds) app).
  { apply (run_idsFrom cmds [] newApp); [|exact Hnd].
    split; [constructor | intros i []]. }
  destruct Hinv as [Hids _].
  split; [intros c1 c2 Hc E; apply Hc, idOfClock_injective, E|].
  split; [exact Hids|]. split.
  - intros env id.
    rewrite (Permutation_length (deleteNote_notes env id app)).
    apply NoDup_ids_at_most_one, Hids.
  - intros env id text ps t.
    destruct (updateNote_notes env id text ps t app) as [E|Hp]; [left; exact E|].
    match type of Hp with
    | Permutation _ (assignFirst _ ?f _) =>
        destruct (assignFirst_one id f (notes app)) as [E|(l1 & n & l2 & E1 & E2)]
    end.
    + rewrite E in Hp.
      destruct (notes app) as [|n r] eqn:En.
      * left. unfold updateNote. rewrite En. reflexivity.
      * right. exists [], n, r, n.
        split; [reflexivity|]. split; [reflexivity | exact Hp].
    + right. rewrite E2 in Hp.
      eexists l1, n, l2, _. split; [exact E1|]. split; [|exact Hp]. reflexivity.
Qed.

(** C5, as stated, fails: two [addNote] calls that read the same
    millisecond give their notes the same id, and [deleteNote] with that id
    takes both away. *)
Lemma same_millisecond_same_id :
  let env := Example.page [] "or" in
  let app := run [AddNote env "first" [] None; AddNote env "second" [] None] newApp in
  map Note.text (notes app) = ["first"; "second"]
  /\ map Note.id (notes app) = ["1704067200000"; "1704067200000"]
  /\ ~ NoDup (map Note.id (notes app))
  /\ notes (deleteNote env "1704067200000" app) = [].
Proof.
  split; [reflexivity|]. split; [reflexivity|]. split; [|reflexivity].
  simpl. intros H. inversion H as [|? ? Hn _]. apply Hn. left. reflexivity.
Qed.

Lemma note_ids_distinct_witness :
  let cmds :=
    [AddNote (Example.pageAt 1704067200000 [] "or") "first" [] None;
     AddNote (Example.pageAt 1704067200001 [] "or") "second" [] None] in
  NoDup (addClocks cmds)
  /\ NoDup (map Note.id (notes (run cmds newApp))).
Proof.
  intros cmds.
  assert (H : NoDup (addClocks cmds)).
  { simpl. constructor; [|constructor; [intros []|constructor]].
    intros [E|[]]. discriminate E. }
  split; [exact H|].
  exact (proj1 (proj2 (note_ids_distinct_for_distinct_clocks cmds H))).
Defined.

(** ** Loading a document *)





(** ** Export followed by load *)

Lemma stringsOfJson_jsonOfStrings (l : list string) :
  stringsOfJson (map JString l) = Some l.
Proof. induction l as [|s r IH]; simpl; [|rewrite IH]; reflexivity. Qed.

Lemma noteOfJson_jsonOfNote (n : Note.t) : noteOfJson (jsonOfNote n) = Some n.
Proof.
  destruct n as [i t ps q c u]. unfold jsonOfNote, jsonOfStrings. simpl.
  rewrite stringsOfJson_jsonOfStrings. destruct u; reflexivity.
Qed.

Lemma notesOfJson_jsonOfNotes (l : list Note.t) :
  notesOfJson (map jsonOfNote l) = Some l.
Proof.
  induction l as [|n r IH]; [reflexivity|].
  cbn [map notesOfJson]. rewrite noteOfJson_jsonOfNote, IH. reflexivity.
Qed.

Lemma replaceFrom_dataOf (mode : string) (app app0 : App) :
  replaceFrom (dataOf mode app) app0
  = Some (set_notes (notes app) (set_people (people app) (videoAfterLoad app app0))).
Proof.
  unfold replaceFrom, dataOf, videoAfterLoad. cbn [prop].
  change (lookup "people" _) with (Some (jsonOfStrings (people app))).
  change (lookup "notes" _) with (Some (jsonOfNotes (notes app))).
  change (lookup "youtubeId" _) with (Some (jsonOfVideoId (videoId app))).
  unfold peopleOrEmpty, notesOrEmpty, jsonOfStrings, jsonOfNotes. cbn [truthy].
  rewrite stringsOfJson_jsonOfStrings, notesOfJson_jsonOfNotes.
  destruct (videoId app) as [v|]; cbn [jsonOfVideoId truthy]; [|reflexivity].
  destruct (Str.truthy v); reflexivity.
Qed.

(** What [importData] makes of an export: people, notes and video of the
    exported project, then the re-rendering of the notes. *)
Lemma importData_exportData (env : Env) (bytes : N) (app app0 : App) :
  importData env (fileOf (exportData app) bytes) app0
  = Some (showSuccess (Text "Data imported successfully!")
            (renderNotes env
               (set_notes (notes app)
                  (set_people (people app) (videoAfterLoad app app0))))).
Proof.
  unfold importData, fileOf, exportData. cbn [content document].
  rewrite replaceFrom_dataOf. reflexivity.
Qed.

Lemma toLowerCase_app (s t : string) :
  Str.toLowerCase (s ++ t) = (Str.toLowerCase s ++ Str.toLowerCase t)%string.
Proof. induction s as [|c r IH]; simpl; [|rewrite IH]; reflexivity. Qed.

Lemma endsWith_app (s t : string) : Str.endsWith (s ++ t) t = true.
Proof.
  unfold Str.endsWith. cbv zeta.
  assert (Hl : String.length (s ++ t) = String.length s + String.length t).
  { induction s as [|c r IH]; simpl; [|rewrite IH]; reflexivity. }
  rewrite Hl. apply andb_true_iff. split; [apply Nat.leb_le; lia|].
  replace (String.length s + String.length t - String.length t)
    with (String.length s) by lia.
  apply String.eqb_eq. clear Hl.
  induction s as [|c r IH]; simpl; [|exact IH].
  clear. induction t as [|c r IH]; simpl; [|rewrite IH]; reflexivity.
Qed.

Lemma hasValidExtension_ynp (nm : string) (bytes : N) (c : ParseResult) :
  hasValidExtension (mkFile (nm ++ ".ynp") bytes c) = true.
Proof.
  unfold hasValidExtension. cbn [name validExtensions existsb].
  rewrite toLowerCase_app.
  change (Str.toLowerCase ".ynp") with ".ynp".
  rewrite endsWith_app. reflexivity.
Qed.

(** What [loadProject] makes of a saved project of at most 10MB. *)
Lemma loadProject_saveProjectAs (env env' : Env) (projectName : option string)
    (description : string) (bytes : N) (app app0 : App) :
  (bytes <= maxSize)%N ->
  exists name,
    loadProject env (fileOf (fst (saveProjectAs env' projectName description app)) bytes) app0
    = Some (showSuccess (ProjectLoaded (Some (JString name)))
              (renderNotes env
                 (set_notes (notes app)
                    (set_people (people app) (videoAfterLoad app app0))))).
Proof.
  intros Hb. unfold saveProjectAs. cbv zeta. cbn [fst fileOf download document].
  match goal with |- context [mkDownload (?n ++ ".ynp")%string _] => exists n; set (nm := n) end.
  unfold loadProject, fileOf. cbn [download document].
  rewrite hasValidExtension_ynp.
  cbn [negb size content].
  apply N.ltb_ge in Hb. rewrite Hb.
  cbn [prop].
  change (lookup "metadata" _) with
    (Some (JObject [("name", JString nm);
                    ("description", JString description);
                    ("created", JString (isoNow env'));
                    ("lastModified", JString (isoNow env'));
                    ("version", JString "1.0");
                    ("appVersion", JString "2.0")])).
  change (lookup "data" (_ :: _ :: nil)) with (Some (dataOf (currentMode app) app)).
  cbn [truthy andb]. unfold dataOf at 1. cbn [truthy andb].
  rewrite replaceFrom_dataOf. reflexivity.
Qed.

(** The people and the notes spliced into the self-contained page are
    those of the project. *)
Lemma extracted_saveProjectAsHTML (app : App) :
  extracted (saveProjectAsHTML app) = Some (people app, notes app).
Proof.
  unfold extracted, saveProjectAsHTML, generateSelfContainedHTML, dataOf.
  cbn [prop embeddedPeople embeddedNotes].
  change (lookup "people" _) with (Some (jsonOfStrings (people app))).
  change (lookup "notes" _) with (Some (jsonOfNotes (notes app))).
  unfold jsonOfStrings, jsonOfNotes.
  rewrite stringsOfJson_jsonOfStrings, notesOfJson_jsonOfNotes. reflexivity.
Qed.

Lemma videoAfterLoad_same (app : App) :
  videoCanonical app -> videoAfterLoad app app = app.
Proof.
  unfold videoCanonical, videoAfterLoad, loadVideoFromId, set_video.
  destruct app as [m ps ns v u t msgs].
  cbn [videoId videoUrl currentMode people notes currentTime messages].
  intros H. destruct v as [v|]; [|reflexivity].
  destruct (Str.truthy v) eqn:Ev; [|reflexivity].
  rewrite <- (H v eq_refl Ev). reflexivity.
Qed.

(** Exported and loaded again at once, a project comes back with the same
    people, the same video and the same notes; what the load adds is the
    re-rendering of the notes and the message. *)
Lemma importData_exportData_same (env : Env) (bytes : N) (app : App) :
  videoCanonical app ->
  importData env (fileOf (exportData app) bytes) app
  = Some (showSuccess (Text "Data imported successfully!") (renderNotes env app)).
Proof.
  intros Hv. rewrite importData_exportData, (videoAfterLoad_same app Hv).
  destruct app; reflexivity.
Qed.

Lemma loadProject_saveProjectAs_same (env env' : Env) (projectName : option string)
    (description : string) (bytes : N) (app : App) :
  videoCanonical app -> (bytes <= maxSize)%N ->
  exists name,
    loadProject env (fileOf (fst (saveProjectAs env' projectName description app)) bytes) app
    = Some (showSuccess (ProjectLoaded (Some (JString name))) (renderNotes env app)).
Proof.
  intros Hv Hb.
  destruct (loadProject_saveProjectAs env env' projectName description bytes app app Hb)
    as [nm H].
  exists nm. rewrite H, (videoAfterLoad_same app Hv). destruct app; reflexivity.
Qed.

(** C8.  An export followed at once by [importData] gives back the
    people, the video and the notes of the project, but when nothing is
    selected in the filter the store comes back in timestamp order: the
    load renders the notes, and [getFilteredNotes] with nothing selected
    sorts the store itself.  A session where that changes the store: x is
    registered and selected in the filter, two notes for x are added, the
    first at 5 seconds and the second at 2, then x is removed, which
    empties the selection.  The store holds the notes in the order they
    were added.  Exported and loaded at once, by [importData] or as a named
    project by [loadProject], the people and the video come back as they
    were, and so does each note, but the store now holds the note at 2
    seconds before the note at 5.  The people and notes spliced into the
    self-contained page are those of the project. *)
Theorem export_then_load_reorders_store :
  (forall env bytes app,
     videoCanonical app -> notesList env = true -> selectedPeopleOf env = [] ->
     importData env (fileOf (exportData app) bytes) app
     = Some (showSuccess (Text "Data imported successfully!")
                         (set_notes (sort byTimestamp (notes app)) app)))
  /\ let selected := Example.pageAt 1704067200000 ["x"] "or" in
     let later := Example.pageAt 1704067260000 ["x"] "or" in
     let app :=
       run [AddPerson "x"; FilterChanged selected;
            AddNote selected "first" ["x"] (Some (5 # 1)%Q);
            AddNote later "second" ["x"] (Some (2 # 1)%Q);
            RemovePerson "x"] newApp in
     let env := Example.pageAt 1704067320000 [] "or" in
     map Note.text (notes app) = ["first"; "second"]
     /\ (exists app',
           importData env (fileOf (exportData app) 512) app = Some app'
           /\ map Note.text (notes app') = ["second"; "first"]
           /\ notes app' <> notes app
           /\ Permutation (notes app') (notes app)
           /\ people app' = people app
           /\ videoId app' = videoId app /\ videoUrl app' = videoUrl app)
     /\ (exists app',
           loadProject env (fileOf (fst (saveProjectAs env (Some "talk") "" app)) 1024) app
           = Some app'
           /\ map Note.text (notes app') = ["second"; "first"]
           /\ notes app' <> notes app)
     /\ extracted (saveProjectAsHTML app) = Some (people app, notes app).
Proof.
  split.
  { intros env bytes app Hv Hl Hs.
    rewrite (importData_exportData_same env bytes app Hv).
    unfold renderNotes. rewrite Hl, (getFilteredNotes_no_selection env app Hs).
    reflexivity. }
  intros selected later app env.
  split; [reflexivity|]. split; [|split; [|reflexivity]].
  - eexists. split; [reflexivity|]. split; [reflexivity|].
    split; [intros H; discriminate H|].
    split; [|repeat split; reflexivity].
    apply perm_swap.
  - eexists. split; [reflexivity|]. split; [reflexivity|].
    intros H; discriminate H.
Qed.

(** * Further properties *)

(** ** The people list over a session *)

Lemma newNames_truthy (l seen : list string) (p : string) :
  In p (newNames seen l) -> Str.truthy p = true.
Proof.
  revert seen. induction l as [|q r IH]; intros seen Hin; [contradiction|].
  simpl in Hin. destruct (includes q seen || negb (Str.truthy q)) eqn:E.
  - exact (IH _ Hin).
  - apply orb_false_iff in E. destruct E as [_ Et].
    apply negb_false_iff in Et.
    destruct Hin as [<-|Hin]; [exact Et | exact (IH _ Hin)].
Qed.

Lemma registerPeople_registryOk (l : list string) (app : App) :
  registryOk app -> registryOk (registerPeople l app).
Proof.
  intros [Hn He]. unfold registryOk. rewrite registerPeople_people. split.
  - apply NoDup_app; [exact Hn | apply newNames_NoDup|].
    intros a Ha Hb. apply newNames_fresh in Hb. apply Hb, Ha.
  - intros Hin. apply in_app_or in Hin. destruct Hin as [Hin|Hin].
    + exact (He Hin).
    + apply newNames_truthy in Hin. discriminate Hin.
Qed.

Lemma registryOk_same_people (app app' : App) :
  people app' = people app -> registryOk app -> registryOk app'.
Proof. unfold registryOk. intros ->. exact (fun H => H). Qed.

Lemma addNote_people (env : Env) (text : string) (ps : list string)
    (t : option Q) (app : App) :
  people (addNote env text ps t app) = people app
  \/ people (addNote env text ps t app)
     = people app ++ newNames (people app) (dropBlank ps).
Proof.
  destruct (Str.truthy (Str.trim text)) eqn:Et.
  - right. apply (addNote_adds_one_note env text ps t app Et).
  - left. unfold addNote. rewrite Et. reflexivity.
Qed.

Lemma updateNote_people (env : Env) (id text : string) (ps : list string)
    (t : Q) (app : App) :
  people (updateNote env id text ps t app) = people app
  \/ people (updateNote env id text ps t app)
     = people app ++ newNames (people app) (dropBlank ps).
Proof.
  unfold updateNote.
  destruct (find (fun n => (Note.id n =? id)%string) (notes app));
    [right | left; reflexivity].
  rewrite registerPeople_people.
  match goal with |- context [renderNotes env ?a] =>
    destruct (renderNotes_frame env a) as [-> _] end.
  reflexivity.
Qed.

Lemma newNames_registryOk (l : list string) (app app' : App) :
  people app' = people app ++ newNames (people app) l ->
  registryOk app -> registryOk app'.
Proof.
  intros E H. apply (registryOk_same_people (registerPeople l app));
    [rewrite registerPeople_people; exact E | apply registerPeople_registryOk, H].
Qed.

Lemma step_registryOk (app : App) (c : Command) :
  registryOk app -> registryOk (step app c).
Proof.
  intros H.
  destruct c as [env text ps t | env id text ps t | env id | name | name | env];
    simpl step.
  - destruct (addNote_people env text ps t app) as [E|E].
    + exact (registryOk_same_people _ _ E H).
    + exact (newNames_registryOk _ _ _ E H).
  - destruct (updateNote_people env id text ps t app) as [E|E].
    + exact (registryOk_same_people _ _ E H).
    + exact (newNames_registryOk _ _ _ E H).
  - apply (registryOk_same_people app); [|exact H].
    unfold deleteNote.
    match goal with |- context [renderNotes env ?a] =>
      destruct (renderNotes_frame env a) as [-> _] end.
    reflexivity.
  - apply (registryOk_same_people (registerPeople [name] app)); [|
      apply registerPeople_registryOk, H].
    unfold registerPeople, addPerson. simpl.
    destruct (includes name (people app)) eqn:Ei; simpl;
      [rewrite orb_true_r|]; reflexivity.
  - destruct H as [Hn He]. split; simpl.
    + apply NoDup_filter, Hn.
    + rewrite filter_In. intros [Hin _]. exact (He Hin).
  - apply (registryOk_same_people app); [|exact H].
    apply renderNotes_frame.
Qed.

(** X1.  Through the note form, the edit and delete buttons and the people
    list, the people list never gets a second copy of a name, nor the empty
    name: if it has neither before a sequence of these actions, it has
    neither after it. *)
Theorem people_stay_distinct (cmds : list Command) (app : App) :
  registryOk app -> registryOk (run cmds app).
Proof.
  revert app. induction cmds as [|c r IH]; intros app H; [exact H|].
  simpl. apply IH, step_registryOk, H.
Qed.

Lemma people_stay_distinct_witness :
  let env := Example.page [] "or" in
  let cmds := [AddPerson "x"; AddPerson "x"; AddNote env "hello" ["x"; "z"; "z"] None;
               AddPerson ""; RemovePerson "y"] in
  registryOk newApp /\ registryOk (run cmds newApp).
Proof.
  intros env cmds.
  assert (H : registryOk newApp) by (split; [constructor | intros []]).
  split; [exact H | exact (people_stay_distinct cmds newApp H)].
Defined.

Lemma assignFirst_elements (id : string) (f : Note.t -> Note.t)
    (l : list Note.t) (m : Note.t) :
  In m (assignFirst id f l) -> In m l \/ exists n, In n l /\ m = f n.
Proof.
  induction l as [|n r IH]; simpl; [intros []|].
  destruct (Note.id n =? id)%string; simpl.
  - intros [E|H]; [right; exists n; split; [left; reflexivity | symmetry; exact E]
                  | left; right; exact H].
  - intros [E|H]; [left; left; exact E|].
    destruct (IH H) as [H1|[k [Hk E]]]; [left; right; exact H1|].
    right. exists k. split; [right; exact Hk | exact E].
Qed.

Lemma registerPeople_covers (l : list string) (app : App) (p : string) :
  (In p (people app) \/ (In p l /\ Str.truthy p = true)) ->
  In p (people (registerPeople l app)).
Proof.
  rewrite registerPeople_people. intros [H|[H Ht]].
  - apply in_or_app. left. exact H.
  - apply newNames_covers; assumption.
Qed.

Lemma step_mentionsRegistered (app : App) (c : Command) :
  keepsPeople c = true ->
  mentionsRegistered app -> mentionsRegistered (step app c).
Proof.
  intros Hk H.
  destruct c as [env text ps t | env id text ps t | env id | name | name | env];
    simpl step; try discriminate Hk; clear Hk.
  - (* addNote *)
    destruct (Str.truthy (Str.trim text)) eqn:Et;
      [|unfold addNote; rewrite Et; exact H].
    destruct (addNote_adds_one_note env text ps t app Et) as (Hp & Hpeople & Hcov & _).
    intros n p Hn Hin.
    eapply Permutation_in in Hn; [|exact Hp].
    apply in_app_or in Hn. destruct Hn as [Hn|[<-|[]]].
    + rewrite Hpeople. apply in_or_app. left. exact (H n p Hn Hin).
    + apply Hcov. exact Hin.
  - (* updateNote *)
    unfold updateNote.
    destruct (find (fun n => (Note.id n =? id)%string) (notes app)); [|exact H].
    intros n p Hn Hin. rewrite registerPeople_notes in Hn.
    eapply Permutation_in in Hn; [|apply renderNotes_perm].
    cbn [notes set_notes] in Hn.
    apply registerPeople_covers.
    match goal with |- context [renderNotes env ?a] =>
      destruct (renderNotes_frame env a) as [-> _] end.
    cbn [people set_notes].
    apply assignFirst_elements in Hn. destruct Hn as [Hn|[k [_ ->]]].
    + left. exact (H n p Hn Hin).
    + right. cbn [Note.people] in Hin. split; [exact Hin|].
      apply dropBlank_In in Hin. apply trim_truthy, Hin.
  - (* deleteNote *)
    intros n p Hn Hin.
    eapply Permutation_in in Hn; [|apply deleteNote_notes].
    apply filter_In in Hn.
    unfold deleteNote.
    match goal with |- context [renderNotes env ?a] =>
      destruct (renderNotes_frame env a) as [-> _] end.
    exact (H n p (proj1 Hn) Hin).
  - (* addPerson *)
    intros n p Hn Hin.
    destruct (addPerson_frame name app) as [En _]. rewrite En in Hn.
    specialize (H n p Hn Hin). unfold addPerson.
    destruct (negb (Str.truthy name) || includes name (people app)); [exact H|].
    apply in_or_app. left. exact H.
  - (* a change of the filter *)
    intros n p Hn Hin.
    eapply Permutation_in in Hn; [|apply renderNotes_perm].
    destruct (renderNotes_frame env app) as [-> _]. exact (H n p Hn Hin).
Qed.

(** X2.  As long as no person is removed, every name a note mentions is in
    the people list: adding and editing notes register the names they
    bring, and deleting notes or adding people takes no name away.  If it
    holds before a sequence of such actions, it holds after it. *)
Theorem mentions_stay_registered (cmds : list Command) (app : App) :
  forallb keepsPeople cmds = true ->
  mentionsRegistered app -> mentionsRegistered (run cmds app).
Proof.
  revert app. induction cmds as [|c r IH]; intros app Hk H; [exact H|].
  simpl in Hk. apply andb_true_iff in Hk. destruct Hk as [Hc Hr].
  simpl. apply (IH _ Hr), step_mentionsRegistered; assumption.
Qed.

Lemma mentions_stay_registered_witness :
  let env := Example.page [] "or" in
  let cmds := [AddNote env "hello" ["x"; "z"] None;
               UpdateNote env "1704067200000" "bye" ["w"] (3 # 1);
               DeleteNote env "7"] in
  forallb keepsPeople cmds = true
  /\ mentionsRegistered newApp
  /\ mentionsRegistered (run cmds newApp).
Proof.
  intros env cmds.
  assert (H : mentionsRegistered newApp) by (intros n p []).
  split; [reflexivity|]. split; [exact H|].
  exact (mentions_stay_registered cmds newApp eq_refl H).
Defined.

(** ** The filter modes compared *)

Lemma selectedPeopleOf_same (env env' : Env) :
  peopleFilter env = peopleFilter env' -> selectedPeopleOf env = selectedPeopleOf env'.
Proof. unfold selectedPeopleOf. intros ->. reflexivity. Qed.

Lemma getFilteredNotes_In (env : Env) (app : App) (n : Note.t) :
  In n (fst (getFilteredNotes env app)) <-> In n (notes app) /\ kept env n = true.
Proof. rewrite getFilteredNotes_result, sort_In, filter_In. reflexivity. Qed.

(** X3.  With the same people selected, every note shown in the mode "and"
    is also shown in any other mode. *)
Theorem and_mode_shows_no_more (envAnd env : Env) (app : App) (n : Note.t) :
  peopleFilter envAnd = peopleFilter env ->
  filterModeOf envAnd = "and" ->
  In n (fst (getFilteredNotes envAnd app)) ->
  In n (fst (getFilteredNotes env app)).
Proof.
  intros Hsel Hmode. rewrite !getFilteredNotes_In. intros [Hn Hk].
  split; [exact Hn|]. apply kept_spec in Hk. apply kept_spec.
  rewrite <- (selectedPeopleOf_same _ _ Hsel).
  destruct Hk as [Hk|[[_ Hk]|[Hk _]]]; [left; exact Hk | | contradiction].
  destruct (selectedPeopleOf envAnd) as [|q r] eqn:Es; [left; reflexivity|].
  right. destruct (String.eqb_spec (filterModeOf env) "and") as [E|E].
  - left. split; [exact E | exact Hk].
  - right. split; [exact E|]. exists q. split; [left; reflexivity|].
    apply Hk. left. reflexivity.
Qed.

Lemma and_mode_shows_no_more_witness :
  let envAnd := Example.page ["x"; "y"] "and" in
  let env := Example.page ["x"; "y"] "or" in
  peopleFilter envAnd = peopleFilter env
  /\ filterModeOf envAnd = "and"
  /\ In Example.B (fst (getFilteredNotes envAnd Example.app))
  /\ In Example.B (fst (getFilteredNotes env Example.app)).
Proof.
  intros envAnd env.
  assert (H : In Example.B (fst (getFilteredNotes envAnd Example.app)))
    by (left; reflexivity).
  split; [reflexivity|]. split; [reflexivity|]. split; [exact H|].
  exact (and_mode_shows_no_more envAnd env Example.app Example.B eq_refl eq_refl H).
Defined.

(** X4.  Selecting more people widens the list in the mode "or" and
    narrows it in the mode "and": with a selection that contains another
    one, a note shown for the smaller selection (not empty) in a mode other
    than "and" is shown for the larger one, and a note shown for the larger
    selection in the mode "and" is shown for the smaller one. *)
Theorem selection_widens_or_narrows_and (small large : Env) (app : App) (n : Note.t) :
  incl (selectedPeopleOf small) (selectedPeopleOf large) ->
  filterModeOf small = filterModeOf large ->
  (filterModeOf small <> "and" -> selectedPeopleOf small <> [] ->
   In n (fst (getFilteredNotes small app)) ->
   In n (fst (getFilteredNotes large app)))
  /\ (filterModeOf small = "and" ->
      In n (fst (getFilteredNotes large app)) ->
      In n (fst (getFilteredNotes small app))).
Proof.
  intros Hincl Hmode. rewrite !getFilteredNotes_In, !kept_spec. split.
  - intros Hor Hne [Hn Hk]. split; [exact Hn|].
    destruct Hk as [Hk|[[Hk _]|[_ [p [Hp Hin]]]]]; try contradiction.
    right. right. split; [rewrite <- Hmode; exact Hor|].
    exists p. split; [apply Hincl, Hp | exact Hin].
  - intros Hand [Hn Hk]. split; [exact Hn|].
    destruct (selectedPeopleOf small) as [|q r] eqn:Es; [left; reflexivity|].
    right. left. split; [exact Hand|].
    intros p Hp. destruct Hk as [Hk|[[_ Hk]|[Hk _]]].
    + specialize (Hincl p Hp). rewrite Hk in Hincl. contradiction.
    + apply Hk, Hincl, Hp.
    + rewrite <- Hmode in Hk. contradiction.
Qed.

Lemma selection_widens_or_narrows_and_witness :
  let small := Example.page ["x"] "or" in
  let large := Example.page ["x"; "y"] "or" in
  incl (selectedPeopleOf small) (selectedPeopleOf large)
  /\ filterModeOf small = filterModeOf large
  /\ In Example.A (fst (getFilteredNotes large Example.app)).
Proof.
  intros small large.
  assert (Hi : incl (selectedPeopleOf small) (selectedPeopleOf large)).
  { intros p [<-|[]]. left. reflexivity. }
  split; [exact Hi|]. split; [reflexivity|].
  apply (proj1 (selection_widens_or_narrows_and small large Example.app Example.A
                  Hi eq_refl)).
  - discriminate.
  - discriminate.
  - right. left. reflexivity.
Defined.

(** ** What the timestamp parser lets through *)

(** X5.  A timestamp that [parseTimestamp] returns is a number, not [NaN],
    and not below zero. *)
Theorem parseTimestamp_not_negative (input : string) (t : number) :
  parseTimestamp input = Some t -> isNaN t = false /\ geZero t = true.
Proof.
  rewrite parseTimestamp_seconds_only.
  destruct (Str.truthy input && negb (isNaN (parseFloat input))
            && geZero (parseFloat input)) eqn:E; [|discriminate].
  intros H. inversion H. subst t.
  apply andb_true_iff in E. destruct E as [E Hg].
  apply andb_true_iff in E. destruct E as [_ Hn].
  apply negb_true_iff in Hn. split; assumption.
Qed.

Lemma parseTimestamp_not_negative_witness :
  parseTimestamp "12.5" = Some (Num (125 # 10))
  /\ isNaN (Num (125 # 10)) = false /\ geZero (Num (125 # 10)) = true.
Proof.
  split; [reflexivity|].
  exact (parseTimestamp_not_negative "12.5" (Num (125 # 10)) eq_refl).
Defined.

Lemma spanDigits_app (ds rest : string) :
  Str.allDigits ds = true -> endsNumber rest = true ->
  Str.spanDigits (ds ++ rest) = (ds, rest).
Proof.
  intros Hd Hr. induction ds as [|c r IH]; simpl.
  - destruct rest as [|c r]; [reflexivity|]. simpl in *.
    apply negb_true_iff in Hr. apply orb_false_iff in Hr. destruct Hr as [Hr _].
    apply orb_false_iff in Hr. destruct Hr as [Hr _].
    apply orb_false_iff in Hr. destruct Hr as [Hr _]. rewrite Hr. reflexivity.
  - cbn [Str.allDigits] in Hd. apply andb_true_iff in Hd. destruct Hd as [Hc Hd].
    rewrite Hc, (IH Hd). reflexivity.
Qed.

(** X6.  [parseTimestamp] reads a whole number at the front of the text and
    ignores what follows it: digits that write a number up to
    [MAX_SAFE_INTEGER], followed by anything that does not continue a
    number (a letter other than e, a space, a colon, ...), parse to the
    number the digits write. *)
Theorem parseTimestamp_ignores_tail (ds rest : string) :
  ds <> "" -> Str.allDigits ds = true ->
  (Str.digits ds <= MAX_SAFE_INTEGER)%Z ->
  endsNumber rest = true ->
  parseTimestamp (ds ++ rest) = Some (Num (Str.digits ds # 1)).
Proof.
  intros Hne Hd _ Hr. destruct ds as [|c ds']; [contradiction|].
  pose proof (spanDigits_app _ _ Hd Hr) as Es.
  assert (Hc : Str.isDigit c = true).
  { cbn [Str.allDigits] in Hd. apply andb_true_iff in Hd. apply Hd. }
  assert (Hp : parseFloat (String c ds' ++ rest) = Num (Str.digits (String c ds') # 1)).
  { unfold parseFloat.
    change (String c ds' ++ rest)%string with (String c (ds' ++ rest)) in *.
    change (Str.trimStart (String c (ds' ++ rest)))
      with (if Str.isWhiteSpace c then Str.trimStart (ds' ++ rest)
            else String c (ds' ++ rest)).
    rewrite (isDigit_not_space c Hc).
    rewrite (isDigit_differs c "-" Hc eq_refl), (isDigit_differs c "+" Hc eq_refl).
    replace (prefix "Infinity" (String c (ds' ++ rest))) with false.
    2:{ change (prefix "Infinity" (String c (ds' ++ rest)))
          with (if ascii_dec "I" c then prefix "nfinity" (ds' ++ rest) else false).
        destruct (ascii_dec "I" c) as [<-|_]; [discriminate Hc | reflexivity]. }
    rewrite Es.
    assert (Hrest : (match rest with
                     | String c0 t =>
                         if (c0 =? ".")%char then Str.spanDigits t else (EmptyString, rest)
                     | EmptyString => (EmptyString, rest)
                     end) = (EmptyString, rest)).
    { destruct rest as [|c0 t]; [reflexivity|]. simpl in Hr.
      apply negb_true_iff in Hr. apply orb_false_iff in Hr. destruct Hr as [Hr _].
      apply orb_false_iff in Hr. destruct Hr as [Hr _].
      apply orb_false_iff in Hr. destruct Hr as [_ Hr]. rewrite Hr. reflexivity. }
    rewrite Hrest, append_empty_r.
    assert (He : exponentPart rest = 0%Z).
    { destruct rest as [|c0 t]; [reflexivity|]. simpl in Hr. unfold exponentPart.
      apply negb_true_iff in Hr. apply orb_false_iff in Hr. destruct Hr as [Hr HE].
      apply orb_false_iff in Hr. destruct Hr as [_ He]. rewrite He, HE. reflexivity. }
    rewrite He. reflexivity. }
  rewrite parseTimestamp_seconds_only, Hp.
  change (Str.truthy (String c ds' ++ rest)) with true.
  cbn [isNaN negb andb geZero].
  replace (Qle_bool 0 (Str.digits (String c ds') # 1)) with true; [reflexivity|].
  symmetry. apply Qle_bool_iff. unfold Qle. simpl Qnum. simpl Qden.
  pose proof (digitsFrom_nonneg (String c ds') 0 Hd (Z.le_refl 0)) as H0.
  unfold Str.digits. lia.
Qed.

Lemma parseTimestamp_ignores_tail_witness :
  "90" <> "" /\ Str.allDigits "90" = true
  /\ (Str.digits "90" <= MAX_SAFE_INTEGER)%Z
  /\ endsNumber " seconds" = true
  /\ parseTimestamp "90 seconds" = Some (Num (90 # 1)).
Proof.
  assert (Hb : (Str.digits "90" <= MAX_SAFE_INTEGER)%Z)
    by (vm_compute; discriminate).
  split; [discriminate|]. split; [reflexivity|]. split; [exact Hb|].
  split; [reflexivity|].
  apply (parseTimestamp_ignores_tail "90" " seconds");
    [discriminate | reflexivity | exact Hb | reflexivity].
Defined.

(** ** Store operations combined *)

Lemma filter_perm {A : Type} (f : A -> bool) (l l' : list A) :
  Permutation l l' -> Permutation (filter f l) (filter f l').
Proof.
  induction 1 as [|x l l' _ IH|x y l|l l' l'' _ IH1 _ IH2]; simpl.
  - constructor.
  - destruct (f x); [apply perm_skip|]; exact IH.
  - destruct (f x), (f y); try apply Permutation_refl. apply perm_swap.
  - eapply perm_trans; eassumption.
Qed.

Lemma filter_other_ids (id : string) (l : list Note.t) :
  ~ In id (map Note.id l) ->
  filter (fun n => negb (Note.id n =? id)%string) l = l.
Proof.
  induction l as [|n r IH]; simpl; intros H; [reflexivity|].
  destruct (String.eqb_spec (Note.id n) id) as [E|_]; simpl.
  - exfalso. apply H. left. exact E.
  - rewrite IH; [reflexivity|]. intros Hin. apply H. right. exact Hin.
Qed.

Lemma find_unknown_id (id : string) (l : list Note.t) :
  ~ In id (map Note.id l) ->
  find (fun n => (Note.id n =? id)%string) l = None.
Proof.
  induction l as [|n r IH]; simpl; intros H; [reflexivity|].
  destruct (String.eqb_spec (Note.id n) id) as [E|_].
  - exfalso. apply H. left. exact E.
  - apply IH. intros Hin. apply H. right. exact Hin.
Qed.

(** X7.  Deleting the note that [addNote] has just added gives back the
    notes there were before, when no other note had the new id.  (The
    order may have changed: both methods render the notes.) *)
Theorem deleteNote_undoes_addNote (env env' : Env) (text : string)
    (ps : list string) (t : option Q) (app : App) :
  ~ In (idOfClock (now env)) (map Note.id (notes app)) ->
  Permutation
    (notes (deleteNote env' (idOfClock (now env)) (addNote env text ps t app)))
    (notes app).
Proof.
  intros Hfresh.
  eapply perm_trans; [apply deleteNote_notes|].
  destruct (Str.truthy (Str.trim text)) eqn:Et.
  - destruct (addNote_adds_one_note env text ps t app Et) as [Hp _].
    eapply perm_trans; [apply filter_perm, Hp|].
    rewrite filter_app, (filter_other_ids _ _ Hfresh). simpl.
    rewrite String.eqb_refl. simpl. rewrite app_nil_r. apply Permutation_refl.
  - unfold addNote. rewrite Et. simpl.
    rewrite (filter_other_ids _ _ Hfresh). apply Permutation_refl.
Qed.

Lemma deleteNote_undoes_addNote_witness :
  let env := Example.page [] "or" in
  ~ In (idOfClock (now env)) (map Note.id (notes Example.app))
  /\ Permutation
       (notes (deleteNote env (idOfClock (now env))
                 (addNote env "hello" ["z"] None Example.app)))
       (notes Example.app).
Proof.
  intros env.
  assert (H : ~ In (idOfClock (now env)) (map Note.id (notes Example.app))).
  { simpl. intros [E|[E|[E|[]]]]; discriminate E. }
  split; [exact H|].
  exact (deleteNote_undoes_addNote env env "hello" ["z"] None Example.app H).
Defined.

(** X8.  An id that no note has: [updateNote] changes nothing at all, and
    [deleteNote] keeps every note, the people and the video. *)
Theorem unknown_id_changes_no_note (env : Env) (id text : string)
    (ps : list string) (t : Q) (app : App) :
  ~ In id (map Note.id (notes app)) ->
  updateNote env id text ps t app = app
  /\ Permutation (notes (deleteNote env id app)) (notes app)
  /\ people (deleteNote env id app) = people app
  /\ videoId (deleteNote env id app) = videoId app
  /\ videoUrl (deleteNote env id app) = videoUrl app.
Proof.
  intros H. split.
  - unfold updateNote. rewrite (find_unknown_id _ _ H). reflexivity.
  - split.
    + eapply perm_trans; [apply deleteNote_notes|].
      rewrite (filter_other_ids _ _ H). apply Permutation_refl.
    + unfold deleteNote.
      match goal with |- context [renderNotes env ?a] =>
        destruct (renderNotes_frame env a) as (-> & -> & -> & _) end.
      repeat split; reflexivity.
Qed.

Lemma unknown_id_changes_no_note_witness :
  let env := Example.page [] "or" in
  ~ In "7" (map Note.id (notes Example.app))
  /\ updateNote env "7" "text" ["x"] (1 # 1) Example.app = Example.app.
Proof.
  intros env.
  assert (H : ~ In "7" (map Note.id (notes Example.app))).
  { simpl. intros [E|[E|[E|[]]]]; discriminate E. }
  split; [exact H|].
  exact (proj1 (unknown_id_changes_no_note env "7" "text" ["x"] (1 # 1) Example.app H)).
Defined.

Lemma assignFirst_map {B : Type} (g : Note.t -> B) (id : string)
    (f : Note.t -> Note.t) (l : list Note.t) :
  (forall n, g (f n) = g n) -> map g (assignFirst id f l) = map g l.
Proof.
  intros Hf. induction l as [|n r IH]; [reflexivity|]. simpl.
  destruct (Note.id n =? id)%string; simpl; [rewrite Hf | rewrite IH]; reflexivity.
Qed.

(** X9.  [updateNote] neither adds nor drops a note, and leaves every
    note's id and creation time as they were. *)
Theorem updateNote_keeps_ids_and_creation (env : Env) (id text : string)
    (ps : list string) (t : Q) (app : App) :
  Permutation
    (map (fun n => (Note.id n, Note.createdAt n))
         (notes (updateNote env id text ps t app)))
    (map (fun n => (Note.id n, Note.createdAt n)) (notes app))
  /\ List.length (notes (updateNote env id text ps t app)) = List.length (notes app).
Proof.
  assert (H : Permutation
                (map (fun n => (Note.id n, Note.createdAt n))
                     (notes (updateNote env id text ps t app)))
                (map (fun n => (Note.id n, Note.createdAt n)) (notes app))).
  { destruct (updateNote_notes env id text ps t app) as [E|Hp];
      [rewrite E; apply Permutation_refl|].
    apply (Permutation_map (fun n => (Note.id n, Note.createdAt n))) in Hp.
    rewrite assignFirst_map in Hp; [exact Hp | reflexivity]. }
  split; [exact H|].
  apply Permutation_length in H. rewrite !length_map in H. exact H.
Qed.

(** X10.  Adding a person twice is adding it once, and removing a person
    just added to a list that did not have it gives the list back. *)
Theorem addPerson_twice_and_removed (name : string) (app : App) :
  addPerson name (addPerson name app) = addPerson name app
  /\ (~ In name (people app) ->
      people (removePerson name (addPerson name app)) = people app).
Proof.
  split.
  - destruct (negb (Str.truthy name) || includes name (people app)) eqn:E.
    + assert (H : addPerson name app = app) by (unfold addPerson; rewrite E; reflexivity).
      rewrite H. exact H.
    + assert (H : addPerson name app = set_people (people app ++ [name]) app)
        by (unfold addPerson; rewrite E; reflexivity).
      rewrite H. unfold addPerson. cbn [people set_people].
      replace (includes name (people app ++ [name])) with true;
        [rewrite orb_true_r; reflexivity|].
      symmetry. apply includes_In, in_or_app. right. left. reflexivity.
  - intros Hout.
    assert (Hf : forall l, ~ In name l ->
                 filter (fun p => negb (p =? name)%string) l = l).
    { induction l as [|q r IH]; simpl; intros H; [reflexivity|].
      destruct (String.eqb_spec q name) as [E|_]; simpl.
      - exfalso. apply H. left. exact E.
      - rewrite IH; [reflexivity|]. intros Hin. apply H. right. exact Hin. }
    unfold removePerson, addPerson. cbn [people set_people].
    destruct (negb (Str.truthy name) || includes name (people app));
      cbn [people set_people]; [exact (Hf _ Hout)|].
    rewrite filter_app, (Hf _ Hout). simpl. rewrite String.eqb_refl. simpl.
    apply app_nil_r.
Qed.

(** X11.  Rendering the notes twice is rendering them once: what
    [renderNotes] does to the store it does the first time. *)
Theorem renderNotes_twice (env : Env) (app : App) :
  renderNotes env (renderNotes env app) = renderNotes env app.
Proof.
  unfold renderNotes, getFilteredNotes.
  destruct (notesList env); [|reflexivity].
  destruct (List.length (selectedPeopleOf env) =? 0); [|reflexivity].
  cbn [snd notes set_notes]. rewrite (sort_of_sorted _ (sort_sorted (notes app))).
  reflexivity.
Qed.

(** ** Loading: the guards, the fallback, what is replaced *)

(** X12.  [loadProject] looks at the name and the size of the file before
    its text: a file whose name ends in none of .ynp, .json, .txt (in any
    case of letters) or that is larger than 10MB is refused with an error
    message, whatever it holds, and nothing else changes. *)
Theorem loadProject_refuses_name_or_size (env : Env) (file : File) (app : App) :
  hasValidExtension file = false \/ (maxSize < size file)%N ->
  exists msg, loadProject env file app = Some (showError (Text msg) app).
Proof.
  intros H. unfold loadProject.
  destruct (hasValidExtension file); simpl.
  - destruct H as [H|H]; [discriminate|].
    apply N.ltb_lt in H. rewrite H. eexists. reflexivity.
  - eexists. reflexivity.
Qed.

Lemma loadProject_refuses_name_or_size_witness :
  let env := Example.page [] "or" in
  let file := mkFile "project.ynp.pdf" 40 (Parsed (dataOf "edit" newApp)) in
  (hasValidExtension file = false \/ (maxSize < size file)%N)
  /\ exists msg, loadProject env file Example.app
                 = Some (showError (Text msg) Example.app).
Proof.
  intros env file.
  assert (H : hasValidExtension file = false \/ (maxSize < size file)%N)
    by (left; reflexivity).
  split; [exact H|].
  exact (loadProject_refuses_name_or_size env file Example.app H).
Defined.

Lemma hasValidExtension_json (nm : string) (bytes : N) (c : ParseResult) :
  hasValidExtension (mkFile (nm ++ ".json") bytes c) = true.
Proof.
  unfold hasValidExtension. cbn [name validExtensions existsb].
  rewrite toLowerCase_app.
  change (Str.toLowerCase ".json") with ".json".
  rewrite endsWith_app. rewrite orb_true_r. reflexivity.
Qed.

(** X13.  A file written by [exportData], of at most 10MB, is loaded by
    [loadProject] exactly as by [importData]: it has no [metadata], so the
    fallback for the old format takes it. *)
Theorem loadProject_of_export_is_importData (env : Env) (bytes : N)
    (app app0 : App) :
  (bytes <= maxSize)%N ->
  loadProject env (fileOf (exportData app) bytes) app0
  = importData env (fileOf (exportData app) bytes) app0.
Proof.
  intros Hb. unfold loadProject, fileOf, exportData. cbn [download document].
  match goal with
  | |- context [mkFile (_ ++ ?v ++ ".json")%string _ _] =>
      change ("youtube-notes-" ++ v ++ ".json")%string
        with (("youtube-notes-" ++ v) ++ ".json")%string
  end.
  rewrite hasValidExtension_json. cbn [negb size content].
  apply N.ltb_ge in Hb. rewrite Hb.
  unfold dataOf at 1 2 3. cbn [prop].
  change (lookup "metadata" _) with (@None json).
  reflexivity.
Qed.

Lemma loadProject_of_export_is_importData_witness :
  let env := Example.page [] "or" in
  (2048 <= maxSize)%N
  /\ loadProject env (fileOf (exportData Example.app) 2048) newApp
     = importData env (fileOf (exportData Example.app) 2048) newApp.
Proof.
  intros env.
  assert (H : (2048 <= maxSize)%N) by discriminate.
  split; [exact H|].
  exact (loadProject_of_export_is_importData env 2048 Example.app newApp H).
Defined.

(** X14.  [importData] of an export replaces, it does not merge.  For a
    project whose notes have finite timestamps, as every store of this
    development has, the written document is read back as the value
    exported ([fileOf]); then the people are those of the exported project
    and the notes are its notes, none of the project loaded into is kept.
    The video is replaced when the exported project has one (its id, with
    the watch address made from the id); when it has none, the video that
    was loaded stays. *)
Theorem importData_replaces_people_and_notes (env : Env) (bytes : N)
    (app app0 : App) :
  exists app',
    importData env (fileOf (exportData app) bytes) app0 = Some app'
    /\ people app' = people app
    /\ Permutation (notes app') (notes app)
    /\ (videoId app = None ->
        videoId app' = videoId app0 /\ videoUrl app' = videoUrl app0)
    /\ (forall v, videoId app = Some v -> Str.truthy v = true ->
        videoId app' = Some v
        /\ videoUrl app' = ("https://www.youtube.com/watch?v=" ++ v)%string).
Proof.
  eexists. split; [apply importData_exportData|].
  cbn [people notes videoId videoUrl showSuccess showMessage].
  match goal with |- context [renderNotes env ?a] =>
    destruct (renderNotes_frame env a) as (-> & -> & -> & _);
    pose proof (renderNotes_perm env a) as Hp end.
  cbn [people notes videoId videoUrl set_notes set_people] in *.
  split; [reflexivity|]. split; [exact Hp|].
  unfold videoAfterLoad. split.
  - intros ->. split; reflexivity.
  - intros v -> ->. split; reflexivity.
Qed.

(** ** The project saved in the browser *)

(** X15.  What [saveData] writes, [loadData] reads back: the people, the
    notes, the video id and the video address of the saved project, for a
    project whose video address is the watch address of its video (as
    [loadVideoFromId] leaves it). *)
Theorem loadData_reads_back_saveData (app app0 : App) :
  videoCanonical app -> videoId app <> Some "" ->
  exists app',
    loadData (Some (Parsed (saveData app))) app0 = Some app'
    /\ people app' = people app
    /\ notes app' = notes app
    /\ videoId app' = videoId app
    /\ videoUrl app' = videoUrl app.
Proof.
  intros Hc Hne. unfold loadData, saveData. cbn [prop].
  change (lookup "people" _) with (Some (jsonOfStrings (people app))).
  change (lookup "notes" _) with (Some (jsonOfNotes (notes app))).
  change (lookup "videoId" _) with (Some (jsonOfVideoId (videoId app))).
  change (lookup "videoUrl" _) with (Some (JString (videoUrl app))).
  unfold peopleOrEmpty, notesOrEmpty, jsonOfStrings, jsonOfNotes. cbn [truthy].
  rewrite stringsOfJson_jsonOfStrings, notesOfJson_jsonOfNotes.
  assert (Hu : videoUrlOrEmpty (Some (JString (videoUrl app))) = Some (videoUrl app)).
  { unfold videoUrlOrEmpty. cbn [truthy].
    destruct (videoUrl app); reflexivity. }
  rewrite Hu. unfold videoIdOrNull, videoCanonical in *.
  destruct (videoId app) as [v|] eqn:Ev; cbn [jsonOfVideoId truthy].
  - destruct (Str.truthy v) eqn:Et.
    + eexists. split; [reflexivity|].
      rewrite Et, (Hc v eq_refl Et). repeat split; reflexivity.
    + destruct v; [|discriminate Et]. exfalso. apply Hne. reflexivity.
  - eexists. split; [reflexivity|]. repeat split; reflexivity.
Qed.

Lemma loadData_reads_back_saveData_witness :
  let app := loadVideoFromId "dQw4w9WgXcQ" Example.app in
  videoCanonical app /\ videoId app <> Some ""
  /\ exists app',
       loadData (Some (Parsed (saveData app))) newApp = Some app'
       /\ people app' = people app
       /\ notes app' = notes app
       /\ videoId app' = videoId app
       /\ videoUrl app' = videoUrl app.
Proof.
  intros app.
  assert (Hc : videoCanonical app).
  { intros v E _. inversion E. reflexivity. }
  assert (Hn : videoId app <> Some "") by discriminate.
  split; [exact Hc|]. split; [exact Hn|].
  exact (loadData_reads_back_saveData app newApp Hc Hn).
Defined.

(** ** Video addresses *)

Lemma takeId_allIdChars (s : string) : allIdChars (takeId s) = true.
Proof.
  induction s as [|c r IH]; [reflexivity|]. simpl.
  destruct (idChar c) eqn:E; [|reflexivity]. simpl. rewrite E. exact IH.
Qed.

Lemma idAfter_wellFormed (lit s v : string) :
  idAfter lit s = Some v -> v <> "" /\ allIdChars v = true.
Proof.
  unfold idAfter. destruct (dropLiteral lit s) as [r|]; [|discriminate].
  pose proof (takeId_allIdChars r) as H.
  destruct (takeId r) as [|c t]; [discriminate|].
  intros E. inversion E. subst v. split; [discriminate | exact H].
Qed.

Lemma lastV_wellFormed (s v : string) :
  lastV s = Some v -> v <> "" /\ allIdChars v = true.
Proof.
  induction s as [|c r IH]; simpl; [discriminate|].
  destruct (if isLineTerminator c then None else lastV r) as [w|] eqn:E.
  - intros H. inversion H. subst w.
    destruct (isLineTerminator c); [discriminate | exact (IH E)].
  - apply idAfter_wellFormed.
Qed.

Lemma search_wellFormed (here : string -> option string) (s v : string) :
  (forall t w, here t = Some w -> w <> "" /\ allIdChars w = true) ->
  search here s = Some v -> v <> "" /\ allIdChars v = true.
Proof.
  intros Hh. induction s as [|c r IH]; simpl; [apply Hh|].
  destruct (here (String c r)) as [w|] eqn:E; [|exact IH].
  intros H. inversion H. subst w. exact (Hh _ _ E).
Qed.

(** A video id that [extractVideoId] returns is not empty and has none of
    the characters &, ?, # and line feed in it. *)
Lemma extractVideoId_wellFormed (url v : string) :
  extractVideoId url = Some v -> v <> "" /\ allIdChars v = true.
Proof.
  unfold extractVideoId. destruct (negb (Str.truthy url)); [discriminate|].
  destruct (search watchOrShortOrEmbed url) as [w|] eqn:E1.
  - intros H. inversion H. subst w. revert E1. apply search_wellFormed.
    intros t w. unfold watchOrShortOrEmbed.
    destruct (idAfter "youtube.com/watch?v=" t) as [x|] eqn:Ea.
    + intros H1. inversion H1. subst x. exact (idAfter_wellFormed _ _ _ Ea).
    + destruct (idAfter "youtu.be/" t) as [x|] eqn:Eb.
      * intros H1. inversion H1. subst x. exact (idAfter_wellFormed _ _ _ Eb).
      * apply idAfter_wellFormed.
  - destruct (search slashV url) as [w|] eqn:E2.
    + intros H. inversion H. subst w. revert E2. apply search_wellFormed.
      intros t w. apply idAfter_wellFormed.
    + apply search_wellFormed. intros t w. unfold watchWithQuery.
      destruct (dropLiteral "youtube.com/watch?" t); [|discriminate].
      apply lastV_wellFormed.
Qed.

Lemma dropLiteral_app (lit s : string) : dropLiteral lit (lit ++ s) = Some s.
Proof.
  induction lit as [|c l IH]; simpl; [destruct s; reflexivity|].
  rewrite Ascii.eqb_refl. exact IH.
Qed.

(** Where an id ends: at the end of the text or at one of &, ?, #, line
    feed. *)
Lemma takeId_app (v tail : string) :
  allIdChars v = true ->
  match tail with String c _ => idChar c = false | EmptyString => True end ->
  takeId (v ++ tail) = v.
Proof.
  intros Hv Ht. induction v as [|c r IH]; simpl.
  - destruct tail as [|c r]; [reflexivity|]. simpl. rewrite Ht. reflexivity.
  - simpl in Hv. apply andb_true_iff in Hv. destruct Hv as [Hc Hr].
    rewrite Hc, (IH Hr). reflexivity.
Qed.

Lemma idAfter_app (lit v tail : string) :
  v <> "" -> allIdChars v = true ->
  match tail with String c _ => idChar c = false | EmptyString => True end ->
  idAfter lit (lit ++ v ++ tail) = Some v.
Proof.
  intros Hne Hv Ht. unfold idAfter.
  rewrite dropLiteral_app, (takeId_app v tail Hv Ht).
  destruct v; [contradiction | reflexivity].
Qed.

Lemma extractVideoId_watch (v tail : string) :
  v <> "" -> allIdChars v = true ->
  match tail with String c _ => idChar c = false | EmptyString => True end ->
  extractVideoId ("https://www.youtube.com/watch?v=" ++ v ++ tail) = Some v.
Proof.
  intros Hne Hv Ht. unfold extractVideoId.
  change ("https://www.youtube.com/watch?v=" ++ v ++ tail)%string
    with ("https://www." ++ ("youtube.com/watch?v=" ++ v ++ tail))%string.
  cbn [String.append Str.truthy negb search].
  change (watchOrShortOrEmbed (String "y" ?r))
    with (watchOrShortOrEmbed ("youtube.com/watch?v=" ++ v ++ tail)).
  unfold watchOrShortOrEmbed at 13.
  rewrite (idAfter_app "youtube.com/watch?v=" v tail Hne Hv Ht).
  reflexivity.
Qed.

Lemma extractVideoId_stored (v : string) (app : App) :
  v <> "" -> allIdChars v = true ->
  extractVideoId (videoUrl (loadVideoFromId v app)) = Some v.
Proof.
  intros Hne Hv. cbn [videoUrl loadVideoFromId set_video].
  pose proof (extractVideoId_watch v "" Hne Hv I) as H.
  rewrite append_empty_r in H. exact H.
Qed.

(** X16.  The three usual forms of an address give back the id they were
    made from: the watch address, the short address and the embed address,
    each followed by nothing or by parameters after &, ? or #.  The id is
    any text, not empty, without &, ?, # and line feed. *)
Theorem extractVideoId_of_usual_addresses (v tail : string) :
  v <> "" -> allIdChars v = true ->
  match tail with String c _ => idChar c = false | EmptyString => True end ->
  extractVideoId ("https://www.youtube.com/watch?v=" ++ v ++ tail) = Some v
  /\ extractVideoId ("https://youtu.be/" ++ v ++ tail) = Some v
  /\ extractVideoId ("https://www.youtube.com/embed/" ++ v ++ tail) = Some v.
Proof.
  intros Hne Hv Ht.
  split; [exact (extractVideoId_watch v tail Hne Hv Ht)|]. split.
  - unfold extractVideoId.
    change ("https://youtu.be/" ++ v ++ tail)%string
      with ("https://" ++ ("youtu.be/" ++ v ++ tail))%string.
    cbn [String.append Str.truthy negb search].
    change (watchOrShortOrEmbed (String "y" ?r))
      with (watchOrShortOrEmbed ("youtu.be/" ++ v ++ tail)).
    unfold watchOrShortOrEmbed at 9.
    rewrite (idAfter_app "youtu.be/" v tail Hne Hv Ht).
    reflexivity.
  - unfold extractVideoId.
    change ("https://www.youtube.com/embed/" ++ v ++ tail)%string
      with ("https://www." ++ ("youtube.com/embed/" ++ v ++ tail))%string.
    cbn [String.append Str.truthy negb search].
    change (watchOrShortOrEmbed (String "y" ?r))
      with (watchOrShortOrEmbed ("youtube.com/embed/" ++ v ++ tail)).
    unfold watchOrShortOrEmbed at 13.
    rewrite (idAfter_app "youtube.com/embed/" v tail Hne Hv Ht).
    reflexivity.
Qed.

Lemma extractVideoId_of_usual_addresses_witness :
  "dQw4w9WgXcQ" <> "" /\ allIdChars "dQw4w9WgXcQ" = true
  /\ extractVideoId "https://youtu.be/dQw4w9WgXcQ?t=43" = Some "dQw4w9WgXcQ".
Proof.
  split; [discriminate|]. split; [reflexivity|].
  apply (proj1 (proj2 (extractVideoId_of_usual_addresses "dQw4w9WgXcQ" "?t=43"
                         ltac:(discriminate) eq_refl eq_refl))).
Defined.

(** X17.  A click on the load button either shows an error and changes
    nothing else, or stores a video id that is not empty and has none of
    &, ?, # and line feed, together with an address from which
    [extractVideoId] reads that same id; the people and the notes are as
    they were in both cases. *)
Theorem loadVideoClick_stores_readable_address (url : string) (app : App) :
  let app' := loadVideoClick url app in
  people app' = people app
  /\ notes app' = notes app
  /\ ((exists msg, app' = showError (Text msg) app)
      \/ (exists v, videoId app' = Some v
                    /\ v <> "" /\ allIdChars v = true
                    /\ extractVideoId (videoUrl app') = Some v
                    /\ messages app'
                       = (success, Text "Video loaded successfully!") :: messages app)).
Proof.
  unfold loadVideoClick.
  destruct (negb (Str.truthy url)).
  { split; [reflexivity|]. split; [reflexivity|]. left. eexists. reflexivity. }
  destruct (extractVideoId url) as [v|] eqn:E.
  - destruct (extractVideoId_wellFormed url v E) as [Hne Hv].
    split; [reflexivity|]. split; [reflexivity|]. right. exists v.
    split; [reflexivity|]. split; [exact Hne|]. split; [exact Hv|].
    split; [|reflexivity].
    exact (extractVideoId_stored v app Hne Hv).
  - split; [reflexivity|]. split; [reflexivity|]. left. eexists. reflexivity.
Qed.

(** ** The recording clock *)

Lemma pauseButton_twice (p r : Z) (st : Studio) :
  (0 < p)%Z -> clockRuns st ->
  clockRuns (pauseButton r (pauseButton p st))
  /\ recordingStartTime (pauseButton r (pauseButton p st))
     = (recordingStartTime st + (r - p))%Z
  /\ currentTime (core (pauseButton r (pauseButton p st))) = currentTime (core st).
Proof.
  intros Hp (Hs & Ht & H0 & Hm & Hr & Hq).
  destruct st as [c src rt start el paused [s m rec pz]].
  cbn [currentSource isRecordingTime recordingPausedTime webcamController
       mediaRecorder isRecording isPaused recordingStartTime core] in *.
  subst src rt paused m rec pz.
  unfold pauseButton, pauseWebcamRecording, resumeWebcamRecording,
    pauseRecording, resumeRecording. simpl.
  apply Z.ltb_lt in Hp. rewrite Hp. simpl.
  split; [repeat split; reflexivity|]. split; reflexivity.
Qed.

Lemma pauseAndResume_clock (pauses : list (Z * Z)) (st : Studio) :
  Forall (fun pr => (0 < fst pr)%Z) pauses -> clockRuns st ->
  clockRuns (pauseAndResume pauses st)
  /\ recordingStartTime (pauseAndResume pauses st)
     = (recordingStartTime st + pausedFor pauses)%Z.
Proof.
  revert st. induction pauses as [|[p r] rest IH]; intros st Hpos Hrun.
  - simpl. split; [exact Hrun | lia].
  - inversion Hpos as [|? ? Hp Hrest]. subst. simpl in Hp.
    destruct (pauseButton_twice p r st Hp Hrun) as (Hrun' & Hstart & _).
    destruct (IH _ Hrest Hrun') as [Hrun'' Hstart''].
    cbn [pauseAndResume pausedFor]. split; [exact Hrun''|].
    rewrite Hstart'', Hstart. lia.
Qed.

(** X18.  The recording clock leaves the pauses out.  With the webcam as
    the source, a stream, no recording under way ([isRecording] false) and
    a recorder that starts ([started] true): recording starts at the clock
    reading [s], the pause button is pressed at [p] (above zero) and again
    at [r] for each pair of a list, and the time is updated at [t]; the
    playback position is then [t - s] less the time spent in the pauses,
    divided by 1000 (the quotient is kept exact). *)
Theorem recording_time_excludes_pauses (s t : Z) (pauses : list (Z * Z))
    (st : Studio) :
  currentSource st = "webcam" ->
  stream (webcamController st) = true ->
  isRecording (webcamController st) = false ->
  Forall (fun pr => (0 < fst pr)%Z) pauses ->
  let st' := updateRecordingTime t
               (pauseAndResume pauses (startWebcamRecording s true st)) in
  currentTime (core st') = ((t - s - pausedFor pauses) # 1000)%Q
  /\ recordingElapsedTime st' = currentTime (core st').
Proof.
  intros Hsrc Hstream Hrec Hpos.
  assert (Hrun : clockRuns (startWebcamRecording s true st)).
  { unfold startWebcamRecording, startRecording.
    rewrite Hsrc, Hstream, Hrec. repeat split; reflexivity. }
  assert (Hstart : recordingStartTime (startWebcamRecording s true st) = s).
  { unfold startWebcamRecording. rewrite Hsrc. reflexivity. }
  destruct (pauseAndResume_clock pauses _ Hpos Hrun)
    as [(_ & Ht & _ & _ & _ & Hq) Hst].
  cbv zeta. unfold updateRecordingTime. rewrite Ht, Hq, Hst, Hstart.
  cbn. split; [|reflexivity].
  replace (t - (s + pausedFor pauses))%Z with (t - s - pausedFor pauses)%Z by lia.
  reflexivity.
Qed.

Lemma recording_time_excludes_pauses_witness :
  let st := mkStudio newApp "webcam" false 0 (0 # 1) 0 (mkWebcam true false false false) in
  let pauses := [(1704067205000, 1704067215000)%Z; (1704067220000, 1704067221000)%Z] in
  currentSource st = "webcam"
  /\ stream (webcamController st) = true
  /\ isRecording (webcamController st) = false
  /\ Forall (fun pr => (0 < fst pr)%Z) pauses
  /\ currentTime (core (updateRecordingTime 1704067230000
                          (pauseAndResume pauses
                             (startWebcamRecording 1704067200000 true st))))
     = ((1704067230000 - 1704067200000 - pausedFor pauses) # 1000)%Q.
Proof.
  intros st pauses.
  assert (Hp : Forall (fun pr => (0 < fst pr)%Z) pauses)
    by (repeat constructor).
  split; [reflexivity|]. split; [reflexivity|]. split; [reflexivity|].
  split; [exact Hp|].
  exact (proj1 (recording_time_excludes_pauses 1704067200000 1704067230000 pauses st
                  eq_refl eq_refl eq_refl Hp)).
Defined.

(** X19.  While the recording is paused the clock stands still: after the
    pause button has been pressed once on a running clock, updating the
    time, at whatever clock reading, changes nothing. *)
Theorem paused_clock_stands_still (p t : Z) (st : Studio) :
  clockRuns st ->
  updateRecordingTime t (pauseButton p st) = pauseButton p st.
Proof.
  intros (Hs & Ht & H0 & Hm & Hr & Hq).
  unfold updateRecordingTime, pauseButton. rewrite Hq.
  unfold pauseWebcamRecording, pauseRecording.
  rewrite Hm, Hr, Hq. cbn [andb negb webcamController isPaused isRecordingTime].
  rewrite andb_false_r. reflexivity.
Qed.

Lemma paused_clock_stands_still_witness :
  let st := mkStudio newApp "webcam" true 1704067200000 (0 # 1) 0
                     (mkWebcam true true true false) in
  clockRuns st
  /\ updateRecordingTime 1704067230000 (pauseButton 1704067205000 st)
     = pauseButton 1704067205000 st.
Proof.
  intros st.
  assert (H : clockRuns st) by (repeat split; reflexivity).
  split; [exact H|].
  exact (paused_clock_stands_still 1704067205000 1704067230000 st H).
Defined.

(** ** Times as text *)

Lemma digitsFrom_uint (d d' : Decimal.uint) :
  Str.digitsFrom (Z.of_N (DecimalPos.Unsigned.of_lu d')) (NilEmpty.string_of_uint d)
  = Z.of_N (DecimalPos.Unsigned.of_lu (Decimal.revapp d d')).
Proof.
  revert d'.
  induction d as [|d IH|d IH|d IH|d IH|d IH|d IH|d IH|d IH|d IH|d IH]; intros d';
    [reflexivity | ..];
    cbn [NilEmpty.string_of_uint Str.digitsFrom Decimal.revapp];
    rewrite <- IH; f_equal;
    cbn [DecimalPos.Unsigned.of_lu];
    rewrite ?N2Z.inj_add, N2Z.inj_mul;
    match goal with |- context [Str.digitValue ?c] =>
      let v := eval vm_compute in (Str.digitValue c) in
      change (Str.digitValue c) with v end;
    generalize (Z.of_N (DecimalPos.Unsigned.of_lu d')); intros z; lia.
Qed.

Lemma digits_idOfClock (n : N) : Str.digits (idOfClock n) = Z.of_N n.
Proof.
  unfold Str.digits, idOfClock.
  change 0%Z with (Z.of_N (DecimalPos.Unsigned.of_lu Decimal.Nil)).
  rewrite digitsFrom_uint.
  change (Decimal.revapp (N.to_uint n) Decimal.Nil) with (Decimal.rev (N.to_uint n)).
  rewrite <- DecimalPos.Unsigned.of_uint_alt.
  change (Pos.of_uint (N.to_uint n)) with (N.of_uint (N.to_uint n)).
  rewrite Unsigned.of_to. reflexivity.
Qed.

Lemma allDigits_uint (d : Decimal.uint) :
  Str.allDigits (NilEmpty.string_of_uint d) = true.
Proof. induction d; simpl; trivial. Qed.

Lemma idOfClock_not_empty (n : N) : idOfClock n <> "".
Proof.
  unfold idOfClock. destruct n as [|p]; [discriminate|].
  pose proof (DecimalPos.Unsigned.to_uint_nonnil p) as H.
  change (N.to_uint (N.pos p)) with (Pos.to_uint p).
  destruct (Pos.to_uint p); [contradiction | discriminate ..].
Qed.

Lemma toStringZ_nonneg (z : Z) :
  (0 <= z)%Z -> toStringZ z = idOfClock (Z.to_N z).
Proof. destruct z; [reflexivity | reflexivity | lia]. Qed.

Lemma twoDigits_below_60 (z : Z) :
  (0 <= z < 60)%Z ->
  exists a b, padStart2 (toStringZ z) = String a (String b "")
              /\ Str.isDigit a = true /\ Str.isDigit b = true
              /\ Str.digits (String a (String b "")) = z.
Proof.
  intros Hz.
  assert (Hall : forallb twoDigitsOk (seq 0 60) = true) by reflexivity.
  rewrite forallb_forall in Hall.
  specialize (Hall (Z.to_nat z)).
  assert (Hin : In (Z.to_nat z) (seq 0 60)) by (apply in_seq; lia).
  specialize (Hall Hin). unfold twoDigitsOk in Hall.
  rewrite Z2Nat.id in Hall by lia.
  destruct (padStart2 (toStringZ z)) as [|a [|b [|? ?]]]; try discriminate.
  apply andb_true_iff in Hall. destruct Hall as [Hab Hv].
  apply andb_true_iff in Hab. destruct Hab as [Ha Hb].
  apply Z.eqb_eq in Hv.
  exists a, b. repeat split; assumption.
Qed.

Lemma Qfloor_div_60 (q : Q) : Qfloor (q / (60 # 1)) = (Qfloor q / 60)%Z.
Proof.
  destruct q as [n d]. unfold Qdiv, Qinv, Qmult, Qfloor. simpl Qnum. simpl Qden.
  rewrite Z.mul_1_r, Pos2Z.inj_mul.
  rewrite Z.div_div; [reflexivity | discriminate | reflexivity].
Qed.

Lemma Qfloor_minus_Z (q : Q) (k : Z) :
  Qfloor (q - inject_Z k) = (Qfloor q - k)%Z.
Proof.
  destruct q as [n d]. unfold Qminus, Qplus, Qopp, inject_Z, Qfloor.
  simpl Qnum. simpl Qden.
  rewrite Pos.mul_1_r, Z.mul_1_r.
  replace (n + - k * Z.pos d)%Z with (n + (- k) * Z.pos d)%Z by reflexivity.
  rewrite Z.div_add; [lia | discriminate].
Qed.

Lemma Qfloor_remainder_60 (q : Q) :
  (0 <= q)%Q -> Qfloor (jsRemainder q (60 # 1)) = (Qfloor q mod 60)%Z.
Proof.
  intros Hq. unfold jsRemainder, jsTrunc.
  assert (Hpos : Qle_bool 0 (q / (60 # 1)) = true).
  { apply Qle_bool_iff. apply Qle_shift_div_l; [reflexivity|].
    rewrite Qmult_0_l. exact Hq. }
  rewrite Hpos, Qfloor_div_60.
  assert (E : ((60 # 1) * inject_Z (Qfloor q / 60) == inject_Z (60 * (Qfloor q / 60)))%Q).
  { unfold Qeq, Qmult, inject_Z. simpl. lia. }
  rewrite (Qfloor_comp _ (q - inject_Z (60 * (Qfloor q / 60)))).
  - rewrite Qfloor_minus_Z. rewrite Z.mod_eq by discriminate. reflexivity.
  - rewrite E. reflexivity.
Qed.

(** The two parts [formatTime] writes for a time at or above zero. *)
Lemma formatTime_parts (seconds : Q) :
  (0 <= seconds)%Q ->
  exists g1 g2,
    formatTime seconds = (g1 ++ ":" ++ g2)%string
    /\ matchTime (formatTime seconds) = Some (g1, g2)
    /\ parseInt g1 = (Qfloor seconds / 60)%Z
    /\ parseInt g2 = (Qfloor seconds mod 60)%Z.
Proof.
  intros Hs. unfold formatTime.
  destruct (Qeq_bool seconds 0) eqn:E0.
  { apply Qeq_bool_iff in E0. exists "0", "00".
    rewrite (Qfloor_comp _ _ E0).
    repeat split; reflexivity. }
  cbv zeta. rewrite Qfloor_div_60, (Qfloor_remainder_60 _ Hs).
  assert (Hf : (0 <= Qfloor seconds)%Z).
  { rewrite <- (Qfloor_Z 0). apply Qfloor_resp_le. exact Hs. }
  set (f := Qfloor seconds) in *.
  assert (Hm : (0 <= f / 60)%Z) by (apply Z.div_pos; lia).
  pose proof (Z.mod_pos_bound f 60 eq_refl) as Hr.
  destruct (twoDigits_below_60 _ Hr) as (a & b & Epad & Ha & Hb & Hv).
  rewrite Epad, (toStringZ_nonneg _ Hm).
  set (g1 := idOfClock (Z.to_N (f / 60))).
  exists g1, (String a (String b "")).
  assert (Hg1 : Str.digits g1 = (f / 60)%Z).
  { unfold g1. rewrite digits_idOfClock. lia. }
  split; [reflexivity|]. split; [|split; [exact Hg1 | exact Hv]].
  unfold matchTime.
  change (":" ++ String a (String b ""))%string
    with (String ":" (String a (String b ""))).
  rewrite (spanDigits_app g1 (String ":" (String a (String b "")))
             (allDigits_uint _) eq_refl).
  pose proof (idOfClock_not_empty (Z.to_N (f / 60))) as Hne. fold g1 in Hne.
  destruct g1 as [|c r]; [contradiction|].
  rewrite Ha, Hb. reflexivity.
Qed.

(** X20.  A time from zero up to [MAX_SAFE_INTEGER] is written by
    [formatTime] as minutes, a colon and two digits of seconds below 60, a
    text that the pattern for minutes and seconds of [parseTimestamp]
    matches; the minutes and the seconds written add up to the whole
    seconds of the time. *)
Theorem formatTime_is_minutes_and_seconds (seconds : Q) :
  (0 <= seconds)%Q -> (seconds <= inject_Z MAX_SAFE_INTEGER)%Q ->
  exists g1 g2,
    formatTime seconds = (g1 ++ ":" ++ g2)%string
    /\ matchTime (formatTime seconds) = Some (g1, g2)
    /\ (parseInt g1 * 60 + parseInt g2 = Qfloor seconds)%Z
    /\ (0 <= parseInt g2 < 60)%Z.
Proof.
  intros Hs _.
  destruct (formatTime_parts seconds Hs) as (g1 & g2 & E & Hm & H1 & H2).
  exists g1, g2. split; [exact E|]. split; [exact Hm|].
  rewrite H1, H2.
  pose proof (Z.div_mod (Qfloor seconds) 60 ltac:(discriminate)).
  pose proof (Z.mod_pos_bound (Qfloor seconds) 60 eq_refl).
  split; lia.
Qed.

Lemma formatTime_is_minutes_and_seconds_witness :
  (0 <= 36005 # 10)%Q
  /\ (36005 # 10 <= inject_Z MAX_SAFE_INTEGER)%Q
  /\ exists g1 g2,
       formatTime (36005 # 10) = (g1 ++ ":" ++ g2)%string
       /\ matchTime (formatTime (36005 # 10)) = Some (g1, g2)
       /\ (parseInt g1 * 60 + parseInt g2 = Qfloor (36005 # 10))%Z
       /\ (0 <= parseInt g2 < 60)%Z.
Proof.
  assert (H : (0 <= 36005 # 10)%Q) by (unfold Qle; simpl; lia).
  assert (Hb : (36005 # 10 <= inject_Z MAX_SAFE_INTEGER)%Q)
    by (vm_compute; discriminate).
  split; [exact H|]. split; [exact Hb|].
  exact (formatTime_is_minutes_and_seconds (36005 # 10) H Hb).
Defined.

(** X21.  A time from zero up to [MAX_SAFE_INTEGER] as [formatTime] shows
    it, typed back into the timestamp field, is read by [parseTimestamp] as
    its minutes taken for seconds: the time 90.5, shown as 1:30, is read as
    1. *)
Theorem parseTimestamp_of_formatTime (seconds : Q) :
  (0 <= seconds)%Q -> (seconds <= inject_Z MAX_SAFE_INTEGER)%Q ->
  parseTimestamp (formatTime seconds) = Some (Num ((Qfloor seconds / 60) # 1)).
Proof.
  intros Hs _.
  destruct (formatTime_parts seconds Hs) as (g1 & g2 & _ & Hm & H1 & _).
  rewrite (parseTimestamp_minutes_only _ _ _ Hm).
  unfold parseInt in H1. rewrite H1. reflexivity.
Qed.

Lemma parseTimestamp_of_formatTime_witness :
  (0 <= 905 # 10)%Q
  /\ (905 # 10 <= inject_Z MAX_SAFE_INTEGER)%Q
  /\ formatTime (905 # 10) = "1:30"
  /\ parseTimestamp (formatTime (905 # 10)) = Some (Num (1 # 1)).
Proof.
  assert (H : (0 <= 905 # 10)%Q) by (unfold Qle; simpl; lia).
  assert (Hb : (905 # 10 <= inject_Z MAX_SAFE_INTEGER)%Q)
    by (vm_compute; discriminate).
  split; [exact H|]. split; [exact Hb|]. split; [reflexivity|].
  exact (parseTimestamp_of_formatTime (905 # 10) H Hb).
Defined.

(** ** Seeking *)

Lemma jsMax_bounds (a b : Q) : (a <= jsMax a b)%Q /\ (b <= jsMax a b)%Q.
Proof.
  unfold jsMax. destruct (Qle_bool a b) eqn:E.
  - apply Qle_bool_iff in E. split; [exact E | apply Qle_refl].
  - split; [apply Qle_refl|].
    apply Qlt_le_weak, Qnot_le_lt. intros H. apply Qle_bool_iff in H. congruence.
Qed.

Lemma jsMin_bounds (a b : Q) : (jsMin a b <= a)%Q /\ (jsMin a b <= b)%Q.
Proof.
  unfold jsMin. destruct (Qle_bool a b) eqn:E.
  - apply Qle_bool_iff in E. split; [apply Qle_refl | exact E].
  - split; [|apply Qle_refl].
    apply Qlt_le_weak, Qnot_le_lt. intros H. apply Qle_bool_iff in H. congruence.
Qed.

Lemma jump_target_bounds (position seconds duration : Q) :
  (0 <= jsMax 0 (jsMin (position + seconds) duration))%Q
  /\ ((0 <= duration)%Q ->
      (jsMax 0 (jsMin (position + seconds) duration) <= duration)%Q).
Proof.
  split; [apply jsMax_bounds|].
  intros Hd. unfold jsMax.
  destruct (Qle_bool 0 (jsMin (position + seconds) duration));
    [apply jsMin_bounds | exact Hd].
Qed.

(** X22.  [jumpTime] never asks for a time before the start of the video
    or, the duration being at or above zero, after its end; and when the
    player is there and the video loaded (or, for a local file, the video
    element is there) it always asks, the test of [seekToTime] for a
    negative time never turning the jump down. *)
Theorem jumpTime_stays_in_video (position seconds : Q) (tr : Transport.t) :
  (forall t, jumpTime position seconds tr = Some t ->
     (0 <= t)%Q
     /\ ((0 <= Transport.duration tr)%Q -> (t <= Transport.duration tr)%Q))
  /\ ((Transport.currentSource tr = "youtube" /\ Transport.player tr = true
       /\ Transport.isVideoLoaded tr = true)
      \/ (Transport.currentSource tr = "local" /\ Transport.videoElement tr = true) ->
      jumpTime position seconds tr
      = Some (jsMax 0 (jsMin (position + seconds) (Transport.duration tr)))).
Proof.
  pose proof (jump_target_bounds position seconds (Transport.duration tr)) as [H0 Hd].
  assert (Hok : Qle_bool 0 (jsMax 0 (jsMin (position + seconds) (Transport.duration tr)))
                = true) by (apply Qle_bool_iff, H0).
  split.
  - intros t. unfold jumpTime, seekToTime. cbv zeta. rewrite Hok.
    destruct (Transport.currentSource tr =? "youtube")%string.
    + destruct (Transport.player tr); simpl; [|discriminate].
      destruct (Transport.isVideoLoaded tr); simpl; [|discriminate].
      intros E. inversion E. subst t. split; assumption.
    + destruct (Transport.currentSource tr =? "local")%string; [|discriminate].
      destruct (Transport.videoElement tr); simpl; [|discriminate].
      intros E. inversion E. subst t. split; assumption.
  - unfold jumpTime, seekToTime. cbv zeta. rewrite Hok.
    intros [(-> & -> & ->)|(-> & ->)]; reflexivity.
Qed.

(** ** The note form *)

(** X23.  A submit with a timestamp text that [parseTimestamp] does not
    accept adds no note: the error message is shown, and the project and
    the captured timestamp are otherwise as they were. *)
Theorem submitNote_refuses_bad_timestamp (env : Env) (text : string)
    (selectedOptions : list string) (timestamp : string) (f : NoteForm) :
  Str.truthy text = true -> Str.truthy timestamp = true ->
  parseTimestamp timestamp = None ->
  exists msg,
    submitNote env text selectedOptions timestamp f
    = Some (mkNoteForm (showError (Text msg) (project f)) (capturedTimestamp f)).
Proof.
  intros Ht Hs Hp. unfold submitNote. rewrite Ht, Hs, Hp. eexists. reflexivity.
Qed.

Lemma submitNote_refuses_bad_timestamp_witness :
  let env := Example.page [] "or" in
  let f := mkNoteForm Example.app (Some (12 # 1)%Q) in
  Str.truthy "hello" = true /\ Str.truthy "soon" = true
  /\ parseTimestamp "soon" = None
  /\ exists msg,
       submitNote env "hello" ["x"] "soon" f
       = Some (mkNoteForm (showError (Text msg) (project f)) (capturedTimestamp f)).
Proof.
  intros env f.
  split; [reflexivity|]. split; [reflexivity|]. split; [reflexivity|].
  exact (submitNote_refuses_bad_timestamp env "hello" ["x"] "soon" f
           eq_refl eq_refl eq_refl).
Defined.

Lemma addNote_has_note (env : Env) (text : string) (ps : list string)
    (t : Q) (app : App) :
  Str.truthy (Str.trim text) = true -> ~ (t == 0)%Q ->
  In (Note.make (idOfClock (now env)) (Str.trim text) (dropBlank ps) t
                (isoNow env) None)
     (notes (addNote env text ps (Some t) app)).
Proof.
  intros Ht Hz.
  destruct (addNote_adds_one_note env text ps (Some t) app Ht) as [Hp _].
  eapply Permutation_in; [apply Permutation_sym, Hp|].
  rewrite (orCurrentTime_given t (currentTime app) Hz).
  apply in_or_app. right. left. reflexivity.
Qed.

(** X24.  The time of a submitted note, for a text that is not blank: the
    time typed in the field when it parses to a number other than 0,
    whatever was captured; with the field empty, the captured time when
    there is one other than 0, whatever the playback position is by then.
    In both cases the captured time is cleared. *)
Theorem submitNote_time_priority (env : Env) (text : string)
    (selectedOptions : list string) (f : NoteForm) :
  Str.truthy (Str.trim text) = true ->
  let selectedPeople :=
    dropBlank (filter (fun value => negb (value =? "")%string) selectedOptions) in
  let noteAt t :=
    Note.make (idOfClock (now env)) (Str.trim text) selectedPeople t
              (isoNow env) None in
  (forall timestamp t,
     Str.truthy timestamp = true -> parseTimestamp timestamp = Some (Num t) ->
     ~ (t == 0)%Q ->
     exists f', submitNote env text selectedOptions timestamp f = Some f'
                /\ capturedTimestamp f' = None
                /\ In (noteAt t) (notes (project f')))
  /\ (forall c,
        capturedTimestamp f = Some c -> ~ (c == 0)%Q ->
        exists f', submitNote env text selectedOptions "" f = Some f'
                   /\ capturedTimestamp f' = None
                   /\ In (noteAt c) (notes (project f'))).
Proof.
  intros Ht selectedPeople noteAt.
  assert (Htext : Str.truthy text = true) by (apply trim_truthy, Ht).
  split.
  - intros timestamp t Hs Hp Hz. unfold submitNote. rewrite Htext, Hs, Hp.
    eexists. split; [reflexivity|]. split; [reflexivity|].
    apply (addNote_has_note env text _ t (project f) Ht Hz).
  - intros c Hc Hz. unfold submitNote. rewrite Htext, Hc.
    eexists. split; [reflexivity|]. split; [reflexivity|].
    apply (addNote_has_note env text _ c (project f) Ht Hz).
Qed.

Lemma submitNote_time_priority_witness :
  let env := Example.page [] "or" in
  let f := mkNoteForm (set_currentTime (42 # 1) Example.app) (Some (12 # 1)%Q) in
  Str.truthy (Str.trim "hello") = true
  /\ exists f', submitNote env "hello" ["x"] "" f = Some f'
                /\ capturedTimestamp f' = None
                /\ In (Note.make (idOfClock (now env)) "hello" ["x"] (12 # 1)
                                 (isoNow env) None)
                      (notes (project f')).
Proof.
  intros env f.
  split; [reflexivity|].
  apply (proj2 (submitNote_time_priority env "hello" ["x"] f eq_refl) (12 # 1)%Q);
    [reflexivity | intros H; discriminate H].
Defined.

(** ** Editing a note *)

Lemma splitOn_not_nil (sep : ascii) (s : string) : splitOn sep s <> [].
Proof.
  destruct s as [|c r]; simpl; [discriminate|].
  destruct (c =? sep)%char; [discriminate|].
  destruct (splitOn sep r); discriminate.
Qed.

Lemma splitOn_one_piece_app (sep : ascii) (p r : string) :
  splitOn sep p = [p] ->
  splitOn sep (p ++ String sep r) = p :: splitOn sep r.
Proof.
  induction p as [|c p IH]; simpl.
  - intros _. rewrite Ascii.eqb_refl. reflexivity.
  - destruct (c =? sep)%char; [discriminate|].
    destruct (splitOn sep p) as [|h t] eqn:E.
    + exfalso. exact (splitOn_not_nil sep p E).
    + intros H. injection H as Hh Ht. subst h t.
      rewrite (IH eq_refl). reflexivity.
Qed.

Lemma splitOn_join (l : list string) (x : string) :
  (forall p, In p (x :: l) -> splitOn "," p = [p]) ->
  splitOn "," (join ", " (x :: l)) = x :: map (String " ") l.
Proof.
  revert x. induction l as [|y r IH]; intros x H.
  - simpl. apply H. left. reflexivity.
  - change (join ", " (x :: y :: r))
      with (x ++ String "," (String " " (join ", " (y :: r))))%string.
    rewrite splitOn_one_piece_app by (apply H; left; reflexivity).
    change (splitOn "," (String " " (join ", " (y :: r))))
      with (match splitOn "," (join ", " (y :: r)) with
            | h :: t => String " " h :: t
            | [] => [String " " EmptyString]
            end).
    rewrite IH by (intros p Hp; apply H; right; exact Hp).
    reflexivity.
Qed.

Lemma dropBlank_clean (l : list string) :
  (forall p, In p l -> cleanName p) ->
  dropBlank (map Str.trim (splitOn "," (join ", " l))) = l.
Proof.
  intros H. destruct l as [|x r]; [reflexivity|].
  rewrite splitOn_join by (intros p Hp; apply (H p Hp)).
  assert (Hx : cleanName x) by (apply H; left; reflexivity).
  assert (Hr : forall p, In p r -> cleanName p)
    by (intros p Hp; apply H; right; exact Hp).
  assert (Keep : forall p, cleanName p ->
                 Str.truthy (Str.trim (Str.trim p)) = true /\ Str.trim p = p).
  { intros p [Hne [Ht _]]. rewrite !Ht. split; [|reflexivity].
    destruct p; [contradiction | reflexivity]. }
  unfold dropBlank. cbn [map filter].
  destruct (Keep x Hx) as [-> ->]. f_equal.
  clear H Hx. induction r as [|y r IH]; [reflexivity|].
  cbn [map filter].
  change (Str.trim (String " " y)) with (Str.trim y).
  destruct (Keep y (Hr y (or_introl eq_refl))) as [-> ->]. f_equal.
  apply IH. intros p Hp. apply Hr. right. exact Hp.
Qed.

Lemma pickedPeople_In (selection : string) (l : list string) (p : string) :
  In p (pickedPeople selection l) -> In p l.
Proof.
  unfold pickedPeople, selectedIndices. rewrite in_map_iff.
  intros [i [E Hi]]. subst p. apply in_flat_map in Hi.
  destruct Hi as [piece [_ Hi]].
  destruct (parseIntText (Str.trim piece)) as [z|]; [|contradiction].
  cbv zeta in Hi.
  destruct ((0 <=? z - 1)%Z && (z - 1 <? Z.of_nat (List.length l))%Z) eqn:B;
    [|contradiction].
  destruct Hi as [E|[]]. subst i.
  apply andb_true_iff in B. destruct B as [B1 B2].
  apply Z.leb_le in B1. apply Z.ltb_lt in B2.
  apply nth_In. lia.
Qed.

Lemma newNames_known (l seen : list string) :
  (forall p, In p l -> In p seen) -> newNames seen l = [].
Proof.
  induction l as [|p r IH]; intros H; [reflexivity|].
  simpl. assert (E : includes p seen = true)
    by (apply includes_In, H; left; reflexivity).
  rewrite E. simpl. apply IH. intros q Hq. apply H. right. exact Hq.
Qed.

(** X25.  [editNote] changes neither the notes nor the people when one of
    its questions is cancelled or when the timestamp typed does not parse:
    [this] stays as it is, but for the error message in the second case. *)
Theorem editNote_cancelled_or_refused (env : Env) (id : string)
    (answers : Answers) (app : App) :
  textAnswer answers = None
  \/ peopleAnswer answers = None
  \/ timestampAnswer answers = None
  \/ (exists ts, timestampAnswer answers = Some ts /\ parseTimestamp ts = None) ->
  exists app',
    editNote env id answers app = Some app'
    /\ notes app' = notes app
    /\ people app' = people app
    /\ videoId app' = videoId app
    /\ (app' = app
        \/ exists message, app' = showError message app).
Proof.
  intros H. unfold editNote.
  destruct (find (fun n => (Note.id n =? id)%string) (notes app));
    [|exists app; repeat split; left; reflexivity].
  destruct (textAnswer answers) as [newText|];
    [|exists app; repeat split; left; reflexivity].
  destruct H as [H|H]; [discriminate|].
  destruct (0 <? List.length (people app)).
  - destruct (peopleAnswer answers) as [selection|];
      [|exists app; repeat split; left; reflexivity].
    destruct H as [H|H]; [discriminate|].
    destruct H as [H|[ts [H Hp]]].
    + rewrite H. exists app; repeat split; left; reflexivity.
    + rewrite H, Hp. eexists. split; [reflexivity|].
      repeat split. right. eexists. reflexivity.
  - destruct (peopleAnswer answers) as [newPeople|];
      [|exists app; repeat split; left; reflexivity].
    destruct H as [H|H]; [discriminate|].
    destruct H as [H|[ts [H Hp]]].
    + rewrite H. exists app; repeat split; left; reflexivity.
    + rewrite H, Hp. eexists. split; [reflexivity|].
      repeat split. right. eexists. reflexivity.
Qed.

Lemma editNote_cancelled_or_refused_witness :
  exists app',
    editNote (Example.page [] "or") "1"
             (mkAnswers (Some "new text") (Some "1,2") (Some "soon")) Example.app
    = Some app'
    /\ notes app' = notes Example.app
    /\ people app' = people Example.app
    /\ videoId app' = videoId Example.app
    /\ (app' = Example.app
        \/ exists message, app' = showError message Example.app).
Proof.
  apply editNote_cancelled_or_refused.
  right. right. right. exists "soon". split; reflexivity.
Defined.

(** X26.  [editNote] with people picked by number.  When the people list is
    not empty and each of its names is clean (not empty, no comma, no white
    space at either end), the numbers typed pick names of the list (numbers
    out of range and texts that are no number are skipped), the edited note
    gets the trimmed text, exactly the picked names in the order typed, and
    the parsed timestamp, and the people list stays as it is. *)
Theorem editNote_picks_registered_people (env : Env) (id text selection ts : string)
    (t : Q) (note : Note.t) (app : App) :
  find (fun n => (Note.id n =? id)%string) (notes app) = Some note ->
  people app <> [] ->
  (forall p, In p (people app) -> cleanName p) ->
  parseTimestamp ts = Some (Num t) ->
  let picked := pickedPeople selection (people app) in
  exists app',
    editNote env id (mkAnswers (Some text) (Some selection) (Some ts)) app
    = Some app'
    /\ (forall p, In p picked -> In p (people app))
    /\ people app' = people app
    /\ In (Note.make id (Str.trim text) picked t (Note.createdAt note)
                     (Some (isoNow env)))
          (notes app').
Proof.
  intros Hf Hne Hclean Hts picked.
  assert (Hin : forall p, In p picked -> In p (people app))
    by (intros p; apply pickedPeople_In).
  assert (Hdrop : dropBlank (map Str.trim (splitOn "," (join ", " picked))) = picked)
    by (apply dropBlank_clean; intros p Hp; apply Hclean, Hin, Hp).
  unfold editNote. rewrite Hf. cbn [textAnswer peopleAnswer timestampAnswer].
  destruct (people app) as [|p0 ps] eqn:Ep; [contradiction|].
  cbn [List.length Nat.ltb Nat.leb]. rewrite Hts. fold picked.
  eexists. split; [reflexivity|]. split; [exact Hin|].
  unfold updateNote. rewrite Hf, Hdrop.
  rewrite registerPeople_people, registerPeople_notes.
  match goal with |- context [renderNotes env ?a] =>
    destruct (renderNotes_frame env a) as [Hp _];
    pose proof (renderNotes_perm env a) as Hperm end.
  rewrite Hp. cbn [people set_notes]. rewrite Ep.
  rewrite newNames_known by exact Hin. split; [apply app_nil_r|].
  eapply Permutation_in; [apply Permutation_sym, Hperm|].
  cbn [notes set_notes].
  destruct (find_some _ _ Hf) as [_ Eid]. apply String.eqb_eq in Eid.
  rewrite <- Eid at 1.
  exact (assignFirst_In id _ (notes app) note Hf).
Qed.

Lemma editNote_picks_registered_people_witness :
  exists app',
    editNote (Example.page ["x"] "or") "1"
             (mkAnswers (Some " seen again ") (Some "2, 7, x, 1") (Some "12"))
             Example.app
    = Some app'
    /\ (forall p, In p ["y"; "x"] -> In p ["x"; "y"])
    /\ people app' = ["x"; "y"]
    /\ In (Note.make "1" "seen again" ["y"; "x"] (12 # 1)%Q "" 
                     (Some "2024-01-01T00:00:00.000Z"))
          (notes app').
Proof.
  refine (editNote_picks_registered_people
            (Example.page ["x"] "or") "1" " seen again " "2, 7, x, 1" "12"
            (12 # 1)%Q Example.A Example.app eq_refl _ _ eq_refl).
  - discriminate.
  - intros p [E|[E|[]]]; subst p; repeat split; discriminate.
Defined.
